(** * network_exporter: configuration reload and the ICMP probe scheduler

    A shallow embedding of [config/config.go] (type validation, probe
    filtering, duplicate detection, sanity checks, installation of the
    configuration) and of [target/target_ping.go] (the merge of a sample into
    the stored result, and the goroutines of one scheduler as a transition
    system), with the properties of the specification stated over them.

    Go strings are byte strings: [string] with one [ascii] per byte.  Go
    integers are [Z]; where the program does arithmetic on them the
    wrap-around of the 64-bit type is written out.  A Go function that can
    panic returns in the [go] type below. *)

From stdpp Require Import base option list gmap strings.
From Stdlib Require Import ZArith Ascii String Lia.

Open Scope string_scope.
Open Scope Z_scope.

(** ** Outcomes of Go code *)

(** A computation either returns or panics with a run-time error. *)
Inductive go (A : Type) : Type :=
| Ret (a : A)
| Panic (msg : string).
Arguments Ret {A} a.
Arguments Panic {A} msg.

(** The (value, error) pair of a fallible library call: a value with a nil
    error, or a non-nil error carrying its message. *)
Inductive res (A : Type) : Type :=
| Val (a : A)
| Failed (err : string).
Arguments Val {A} a.
Arguments Failed {A} err.

(** ** Package strings *)

Module strings.

(** [strings.Split(s, sep)] for a separator of one byte, the only use in the
    program ([sep = "."]).  The result always has at least one element. *)
Fixpoint Split (s : string) (sep : ascii) : list string :=
  match s with
  | EmptyString => [EmptyString]
  | String c s' =>
      if Ascii.eqb c sep then EmptyString :: Split s' sep
      else match Split s' sep with
           | [] => [String c EmptyString]
           | w :: ws => String c w :: ws
           end
  end.

(** ASCII lower-casing of one byte. *)
Definition lower (c : ascii) : ascii :=
  let n := nat_of_ascii c in
  if (Nat.leb 65 n && Nat.leb n 90)%bool then ascii_of_nat (n + 32) else c.

(** [strings.EqualFold(s, t)] on byte strings, folding ASCII letters.  The
    program calls it with [s = "TCP"]; none of T, C, P has a fold partner
    outside ASCII, so for that call the byte model is the library's
    Unicode answer. *)
Fixpoint EqualFold (s t : string) : bool :=
  match s, t with
  | EmptyString, EmptyString => true
  | String a s', String b t' => Ascii.eqb (lower a) (lower b) && EqualFold s' t'
  | _, _ => false
  end.

(** [s[1:]]: a slice expression on a string panics when 1 exceeds the
    length. *)
Definition slice_from_1 (s : string) : go string :=
  match s with
  | EmptyString => Panic "slice bounds out of range [1:0]"
  | String _ s' => Ret s'
  end.

(** [l[1]]: an index expression panics out of range. *)
Definition index_1 (l : list string) : go string :=
  match l with
  | _ :: x :: _ => Ret x
  | _ => Panic "index out of range [1]"
  end.

End strings.

(** ** Package regexp, for the syntax the program's pattern uses *)

Module regexp.

(** The operators of [regexp/syntax] that occur in the pattern. *)
Inductive Regexp : Type :=
| EmptyMatch
| Literal (c : ascii)
| BeginText
| EndText
| Concat (r1 r2 : Regexp)
| Alternate (r1 r2 : Regexp)
| Plus (r : Regexp).

Fixpoint mk_concat (rs : list Regexp) : Regexp :=
  match rs with
  | [] => EmptyMatch
  | [r] => r
  | r :: rs' => Concat r (mk_concat rs')
  end.

Fixpoint mk_alternate (rs : list Regexp) : Regexp :=
  match rs with
  | [] => EmptyMatch
  | [r] => r
  | r :: rs' => Alternate r (mk_alternate rs')
  end.

(** The bytes with a meaning of their own in the pattern language that this
    parser does not implement. *)
Definition unsupported (c : ascii) : bool :=
  existsb (Ascii.eqb c)
    ["("; ")"; "["; "]"; "{"; "}"; "*"; "?"; "."; "\"]%char.

(** The parser: alternation binds weakest, then concatenation, then the
    postfix [+], which applies to the one atom before it.  [alts] holds the
    finished branches and [cur] the atoms of the branch being read, both
    most recent first. *)
Fixpoint parse (p : string) (alts : list Regexp) (cur : list Regexp)
  : option Regexp :=
  match p with
  | EmptyString => Some (mk_alternate (rev (mk_concat (rev cur) :: alts)))
  | String c p' =>
      if Ascii.eqb c "|" then parse p' (mk_concat (rev cur) :: alts) []
      else if Ascii.eqb c "+" then
        match cur with
        | Literal a :: cur' => parse p' alts (Plus (Literal a) :: cur')
        | _ => None
        end
      else if Ascii.eqb c "^" then parse p' alts (BeginText :: cur)
      else if Ascii.eqb c "$" then parse p' alts (EndText :: cur)
      else if unsupported c then None
      else parse p' alts (Literal c :: cur)
  end.

Definition Compile (p : string) : option Regexp := parse p [] [].

(** [regexp.MustCompile] panics on a pattern that does not parse. *)
Definition MustCompile (p : string) : go Regexp :=
  match Compile p with
  | Some r => Ret r
  | None => Panic ("regexp: Compile(" ++ p ++ "): error parsing regexp")
  end.

(** A position in the text: whether it is the beginning of the text, and
    the bytes from it on. *)
Definition pos : Type := bool * string.

Section iterate.

Variable f : pos -> list pos.

(** One or more rounds of [f]; [fuel] bounds the rounds. *)
Fixpoint rounds (fuel : nat) (p : pos) : list pos :=
  match fuel with
  | O => []
  | S n => f p ++ flat_map (rounds n) (f p)
  end.

End iterate.

(** [ends r p]: the positions at which a match of [r] that begins at [p] can
    end.  A repetition needs no more rounds than there are bytes left, plus
    one. *)
Fixpoint ends (r : Regexp) (p : pos) : list pos :=
  match r with
  | EmptyMatch => [p]
  | Literal c =>
      match snd p with
      | String x s' => if Ascii.eqb x c then [(false, s')] else []
      | EmptyString => []
      end
  | BeginText => if fst p then [p] else []
  | EndText => match snd p with EmptyString => [p] | _ => [] end
  | Concat r1 r2 => flat_map (ends r2) (ends r1 p)
  | Alternate r1 r2 => ends r1 p ++ ends r2 p
  | Plus r1 => rounds (ends r1) (S (String.length (snd p))) p
  end.

(** The positions after the first one: every proper suffix, none of them the
    beginning of the text. *)
Fixpoint later (s : string) : list pos :=
  match s with
  | EmptyString => []
  | String _ s' => (false, s') :: later s'
  end.

Definition positions (s : string) : list pos := (true, s) :: later s.

Definition matches_at (r : Regexp) (p : pos) : bool :=
  match ends r p with [] => false | _ :: _ => true end.

(** [re.MatchString(s)]: whether [s] contains any match of [re]. *)
Definition MatchString (r : Regexp) (s : string) : bool :=
  existsb (matches_at r) (positions s).

End regexp.

(** ** Package config *)

Module config.

Import regexp.

(** [extraKV]: the labels of a target. *)
Record extraKV : Type := { Kv : gmap string string }.

(** One element of [Targets].  [Probe] is a slice: [None] is the nil slice
    of a target without a [probe] key, [Some l] a slice that was given,
    possibly with no element. *)
Record Target : Type := {
  Name : string;
  Host : string;
  Type_ : string;
  Proxy : string;
  Probe : option (list string);
  SourceIp : string;
  Labels : extraKV
}.

Definition Targets : Type := list Target.

(** Durations are [int64] nanoseconds, counts are [int]. *)
Record HTTPGet : Type := { HTTPGet_Interval : Z; HTTPGet_Timeout : Z }.
Record TCP : Type := { TCP_Interval : Z; TCP_Timeout : Z }.
Record MTR : Type := {
  MTR_Interval : Z; MTR_Timeout : Z; MTR_MaxHops : Z; MTR_Count : Z
}.
Record ICMP : Type := { ICMP_Interval : Z; ICMP_Timeout : Z; ICMP_Count : Z }.
Record Conf : Type := {
  Refresh : Z; Nameserver : string; NameserverTimeout : Z
}.

Record Config : Type := {
  Config_Conf : Conf;
  Config_ICMP : ICMP;
  Config_MTR : MTR;
  Config_TCP : TCP;
  Config_HTTPGet : HTTPGet;
  Config_Targets : Targets
}.

(** [c.Targets = targets] *)
Definition set_Targets (c : Config) (targets : Targets) : Config :=
  {| Config_Conf := Config_Conf c; Config_ICMP := Config_ICMP c;
     Config_MTR := Config_MTR c; Config_TCP := Config_TCP c;
     Config_HTTPGet := Config_HTTPGet c; Config_Targets := targets |}.

(** [sub_target := t; sub_target.Name = srvTarget; sub_target.Host = srvTarget] *)
Definition sub_target (t : Target) (srvTarget : string) : Target :=
  {| Name := srvTarget; Host := srvTarget; Type_ := Type_ t;
     Proxy := Proxy t; Probe := Probe t; SourceIp := SourceIp t;
     Labels := Labels t |}.

(** [SafeConfig]: the pointer to the live configuration, nil before the
    first successful reload.  The mutex only orders concurrent callers and
    is not part of the state. *)
Record SafeConfig : Type := { Cfg : option Config }.

(** *** HasDuplicateTargets *)

(** [tmp[ty][name]]: indexing a missing key of the outer map gives the nil
    map, and reading a nil or a missing entry gives [false]. *)
Definition seen (tmp : gmap string (gmap string bool)) (ty name : string)
  : bool :=
  match tmp !! ty with
  | Some names => default false (names !! name)
  | None => false
  end.

(** [tmp[ty][name] = true]: assigning into the nil map panics. *)
Definition mark (tmp : gmap string (gmap string bool)) (ty name : string)
  : go (gmap string (gmap string bool)) :=
  match tmp !! ty with
  | Some names => Ret (<[ty := <[name := true]> names]> tmp)
  | None => Panic "assignment to entry in nil map"
  end.

Definition duplicated (name : string) : go (bool * option string) :=
  Ret (true, Some ("found duplicated record: " ++ name)).

(** The range loop of [HasDuplicateTargets]. *)
Fixpoint HasDuplicateTargets_from (tmp : gmap string (gmap string bool))
    (m : Targets) : go (bool * option string) :=
  match m with
  | [] => Ret (false, None)
  | t :: m' =>
      if String.eqb (Type_ t) "ICMP+MTR" then
        if seen tmp "MTR" (Name t) then duplicated (Name t)
        else
          match mark tmp "MTR" (Name t) with
          | Panic e => Panic e
          | Ret tmp1 =>
              if seen tmp1 "ICMP" (Name t) then duplicated (Name t)
              else
                match mark tmp1 "ICMP" (Name t) with
                | Panic e => Panic e
                | Ret tmp2 => HasDuplicateTargets_from tmp2 m'
                end
          end
      else
        if seen tmp (Type_ t) (Name t) then duplicated (Name t)
        else
          match mark tmp (Type_ t) (Name t) with
          | Panic e => Panic e
          | Ret tmp1 => HasDuplicateTargets_from tmp1 m'
          end
  end.

Definition tmp_init : gmap string (gmap string bool) :=
  <["TCP" := ∅]> (<["ICMP" := ∅]> (<["MTR" := ∅]> (<["HTTPGet" := ∅]> ∅))).

Definition HasDuplicateTargets (m : Targets) : go (bool * option string) :=
  HasDuplicateTargets_from tmp_init m.

(** *** ReloadConfig *)

Record LogRecord : Type := {
  level : string;
  msg : string;
  attrs : list (string * string)
}.

(** What [ReloadConfig] reads from outside the package: the host name, the
    file, the YAML decoder and the defaults library, and the two functions of
    [pkg/common] behind the service-discovery interface of the
    specification, [SrvRecordCheck] (is the host the name of an SRV record)
    and [SrvRecordHosts] (the hosts the record resolves to, or an error).
    A decoded configuration has [Probe = None] for a target without a
    [probe] key and [Probe = Some []] for [probe: []]. *)
Record Env : Type := {
  os_Hostname : res string;
  os_Open : string -> res string;
  yaml_Decode : string -> res Config;
  defaults_Set : Config -> res Config;
  common_SrvRecordCheck : string -> bool;
  common_SrvRecordHosts : string -> res (list string)
}.

(** What [ReloadConfig] can change: the receiver and the log. *)
Record world : Type := { live : SafeConfig; logged : list LogRecord }.

Definition M (A : Type) : Type := world -> go A * world.

Definition unit_M {A : Type} (a : A) : M A := fun w => (Ret a, w).

Definition bind_M {A B : Type} (m : M A) (f : A -> M B) : M B :=
  fun w =>
    match m w with
    | (Ret a, w') => f a w'
    | (Panic e, w') => (Panic e, w')
    end.

Definition lift {A : Type} (m : go A) : M A := fun w => (m, w).

Notation "'do' x <- m ; k" := (bind_M m (fun x => k))
  (at level 10, x name, m at level 100, k at level 200).

Definition logger_Error (message : string) (kv : list (string * string))
  : M unit :=
  fun w =>
    (Ret tt,
     {| live := live w;
        logged :=
          (logged w ++ [{| level := "ERROR"; msg := message; attrs := kv |}])%list |}).

(** [sc.Lock(); sc.Cfg = c; sc.Unlock()] *)
Definition store_Cfg (c : Config) : M unit :=
  fun w => (Ret tt, {| live := {| Cfg := Some c |}; logged := logged w |}).

Definition pattern : string := "^ICMP|MTR|ICMP+MTR|TCP|HTTPGet$".

(** The filter on the [probe] list, which the source writes out twice, once
    in each branch of the loop: a nil list keeps the target; otherwise the
    range loop appends the target at every element equal to the host name
    (its [continue] goes on with the next element). *)
Definition probe_filter (hostname : string) (t : Target) (targets : Targets)
  : Targets :=
  match Probe t with
  | None => (targets ++ [t])%list
  | Some ps =>
      fold_left
        (fun acc p => if String.eqb p hostname then (acc ++ [t])%list else acc)
        ps targets
  end.

(** [strings.Split(t.Host, ".")[1][1:]] *)
Definition srv_proto (host : string) : go string :=
  match strings.index_1 (strings.Split host ".") with
  | Panic e => Panic e
  | Ret label => strings.slice_from_1 label
  end.

(** The loop over the hosts of an SRV record. *)
Definition expand (hostname : string) (t : Target)
    (srv_record_hosts : list string) (targets : Targets) : Targets :=
  fold_left
    (fun acc srvTarget => probe_filter hostname (sub_target t srvTarget) acc)
    srv_record_hosts targets.

Definition unknown_check_type (t : Target) : M unit :=
  logger_Error "Unknown check type"
    [("type", "Config"); ("func", "ReloadConfig"); ("target", Name t);
     ("check_type", Type_ t); ("allowed", "(ICMP|MTR|ICMP+MTR|TCP|HTTPGet)")].

(** One round of the loop over [c.Targets]; every [continue] gives back
    [targets] as it was. *)
Definition validate_one (env : Env) (hostname : string) (re : Regexp)
    (t : Target) (targets : Targets) : M Targets :=
  if common_SrvRecordCheck env (Host t) then
    let found := MatchString re (Type_ t) in
    if negb found then
      do _ <- unknown_check_type t ; unit_M targets
    else
      do mismatch <-
        (if String.eqb (Type_ t) "TCP" then
           do proto <- lift (srv_proto (Host t)) ;
           if negb (strings.EqualFold (Type_ t) proto) then
             do _ <-
               logger_Error "Target type doesn't match SRV record protocol"
                 [("type", "Config"); ("func", "ReloadConfig");
                  ("target", Name t); ("check_type", Type_ t);
                  ("srv_proto", proto)] ;
             unit_M true
           else unit_M false
         else unit_M false) ;
      if mismatch : bool then unit_M targets
      else
        match common_SrvRecordHosts env (Host t) with
        | Failed err =>
            do _ <-
              logger_Error "Error processing SRV record"
                [("type", "Config"); ("func", "ReloadConfig");
                 ("target", Host t); ("err", err)] ;
            unit_M targets
        | Val srv_record_hosts =>
            unit_M (expand hostname t srv_record_hosts targets)
        end
  else
    let found := MatchString re (Type_ t) in
    if negb found then
      do _ <- unknown_check_type t ; unit_M targets
    else
      unit_M (probe_filter hostname t targets).

Fixpoint validate_all (env : Env) (hostname : string) (re : Regexp)
    (ts : Targets) (targets : Targets) : M Targets :=
  match ts with
  | [] => unit_M targets
  | t :: ts' =>
      do targets' <- validate_one env hostname re t targets ;
      validate_all env hostname re ts' targets'
  end.

(** The three checks after the duplicate check, in the order of the source;
    the result is the error returned, if any. *)
Definition precheck (c : Config) : option string :=
  if (ICMP_Interval (Config_ICMP c) <=? 0) || (MTR_Interval (Config_MTR c) <=? 0)
     || (TCP_Interval (Config_TCP c) <=? 0)
     || (HTTPGet_Interval (Config_HTTPGet c) <=? 0)
  then Some "intervals (icmp,mtr,tcp,http_get) must be >0"
  else if (MTR_MaxHops (Config_MTR c) <? 0) || (MTR_MaxHops (Config_MTR c) >? 65500)
  then Some "mtr.max-hops must be between 0 and 65500"
  else if (MTR_Count (Config_MTR c) <? 0) || (MTR_Count (Config_MTR c) >? 65500)
  then Some "mtr.count must be between 0 and 65500"
  else None.

(** [ReloadConfig]: the result is the error returned ([None] for nil). *)
Definition ReloadConfig (env : Env) (confFile : string) : M (option string) :=
  match os_Hostname env with
  | Failed err => lift (Panic err)
  | Val hostname =>
      match os_Open env confFile with
      | Failed err => unit_M (Some ("reading config file: " ++ err))
      | Val f =>
          match yaml_Decode env f with
          | Failed err => unit_M (Some ("parsing config file: " ++ err))
          | Val c =>
              match defaults_Set env c with
              | Failed err => unit_M (Some ("setting defaults: " ++ err))
              | Val c =>
                  do re <- lift (MustCompile pattern) ;
                  do targets <-
                    validate_all env hostname re (Config_Targets c) [] ;
                  let c := set_Targets c targets in
                  do dup <- lift (HasDuplicateTargets (Config_Targets c)) ;
                  match snd dup with
                  | Some err => unit_M (Some ("parsing config file: " ++ err))
                  | None =>
                      match precheck c with
                      | Some err => unit_M (Some err)
                      | None => do _ <- store_Cfg c ; unit_M None
                      end
                  end
              end
          end
      end
  end.

End config.

(** ** 64-bit integer arithmetic *)

Module int64.

Definition min : Z := - 2 ^ 63.
Definition max : Z := 2 ^ 63 - 1.

(** The value of a mathematical integer once stored in 64 bits, two's
    complement. *)
Definition wrap (z : Z) : Z := (z + 2 ^ 63) mod 2 ^ 64 - 2 ^ 63.

(** [a + b] on [int], [int64] and [time.Duration]. *)
Definition add (a b : Z) : Z := wrap (a + b).

Definition in_range (z : Z) : Prop := min <= z <= max.

End int64.

(** ** Package target: the ICMP scheduler *)

Module target.

Definition MaxConcurrentJobs : nat := 3.

Section scheduler.

(** The fields of a ping result that one cycle fills in afresh (round-trip
    statistics and the like); the scheduler only carries them. *)
Context {W : Type}.

(** Modelled from the spec: the declaration of [ping.PingResult] is in
    [pkg/ping], outside the sources at hand.  It holds the windowed fields
    of the latest cycle and the three counters that [PING.ping] adds up:
    samples sent and samples failed ([int]) and elapsed sampling time
    ([time.Duration]), each a 64-bit integer. *)
Record PingResult : Type := {
  Windowed : W;
  SntSummary : Z;
  SntFailSummary : Z;
  SntTimeSummary : Z
}.

(** The [PING] object.  [result] is a pointer, [None] for nil; [stop] is the
    channel, [true] once closed; [wg] is the counter of the wait group.  The
    logger and the identifier allocator are handles to other objects. *)
Record PING : Type := {
  name : string;
  host : string;
  ip : string;
  srcAddr : string;
  interval : Z;
  timeout : Z;
  count : Z;
  ipv6 : bool;
  labels : gmap string string;
  result : option PingResult;
  stop : bool;
  wg : nat
}.

Definition set_result (t : PING) (r : option PingResult) : PING :=
  {| name := name t; host := host t; ip := ip t; srcAddr := srcAddr t;
     interval := interval t; timeout := timeout t; count := count t;
     ipv6 := ipv6 t; labels := labels t; result := r; stop := stop t;
     wg := wg t |}.

Definition set_stop (t : PING) (b : bool) : PING :=
  {| name := name t; host := host t; ip := ip t; srcAddr := srcAddr t;
     interval := interval t; timeout := timeout t; count := count t;
     ipv6 := ipv6 t; labels := labels t; result := result t; stop := b;
     wg := wg t |}.

Definition set_wg (t : PING) (n : nat) : PING :=
  {| name := name t; host := host t; ip := ip t; srcAddr := srcAddr t;
     interval := interval t; timeout := timeout t; count := count t;
     ipv6 := ipv6 t; labels := labels t; result := result t; stop := stop t;
     wg := n |}.

(** What [data] holds after the three [+=] of [PING.ping]. *)
Definition merge (data stored : PingResult) : PingResult :=
  {| Windowed := Windowed data;
     SntSummary := int64.add (SntSummary data) (SntSummary stored);
     SntFailSummary := int64.add (SntFailSummary data) (SntFailSummary stored);
     SntTimeSummary := int64.add (SntTimeSummary data) (SntTimeSummary stored) |}.

(** [PING.ping] from the return of [ping.Ping] on: [data] is the pointer
    that call returned (the identifier drawn from the allocator is an
    argument of the call and goes nowhere else).  A returned error is only
    logged.  The rest runs under the write lock, so it is one step. *)
Definition ping (t : PING) (data : option PingResult) : go PING :=
  match data, result t with
  | Some d, Some r => Ret (set_result t (Some (merge d r)))
  | _, _ => Panic "invalid memory address or nil pointer dereference"
  end.

(** [PING.Compute] *)
Definition Compute (t : PING) : option PingResult :=
  match result t with
  | None => None
  | Some r => Some r
  end.

(** [PING.Name], [PING.Host], [PING.Ip] and [PING.Labels]: reads of one
    field under the read lock. *)
Definition Name (t : PING) : string := name t.

Definition Host (t : PING) : string := host t.

Definition Ip (t : PING) : string := ip t.

Definition Labels (t : PING) : gmap string string := labels t.

(** *** The goroutines of one scheduler *)

(** Where the goroutine of [PING.run] is: in the start-up [select], in the
    [select] of the loop, blocked on the send into [waitChan], or returned. *)
Inductive run_pc : Type := AtDelay | AtSelect | AtSend | Exited.

(** Where the caller of [PING.Stop] is: not yet in the call, in
    [t.wg.Wait()] after closing the channel, or back from the call. *)
Inductive stop_pc : Type := NotCalled | AtWait | Returned.

(** One scheduler and its goroutines.  [waitChan] is the number of tokens
    in the buffered channel; [probing] counts the goroutines launched by
    the loop that are inside [t.ping()], [releasing] those that are past it
    and about to receive from [waitChan]. *)
Record system : Type := {
  sched : PING;
  run : run_pc;
  waitChan : nat;
  probing : nat;
  releasing : nat;
  stopper : stop_pc
}.

(** The atomic steps.  [Probed data]: one goroutine finishes [ping.Ping]
    with [data] and runs the locked part of [PING.ping]; when that part
    panics the process ends and the step has no successor.  The panic of
    [time.NewTicker] on an interval that is not positive is not a step: for
    such an interval the program ends where the steps below enter the
    loop, so what is said of every run holds of the program, and what is
    said to be reachable takes a positive interval as a hypothesis. *)
Inductive event : Type :=
| DelayElapsed
| DelayStopped
| Ticked
| Launched
| LoopStopped
| Probed (data : option PingResult)
| Released
| StopCalled
| StopReturned.

Definition step (e : event) (s : system) : option system :=
  match e with
  | DelayElapsed =>
      match run s with
      | AtDelay =>
          Some {| sched := sched s; run := AtSelect; waitChan := waitChan s;
                  probing := probing s; releasing := releasing s;
                  stopper := stopper s |}
      | _ => None
      end
  | DelayStopped =>
      match run s with
      | AtDelay =>
          if stop (sched s) then
            Some {| sched := sched s; run := AtSelect; waitChan := waitChan s;
                    probing := probing s; releasing := releasing s;
                    stopper := stopper s |}
          else None
      | _ => None
      end
  | Ticked =>
      match run s with
      | AtSelect =>
          Some {| sched := sched s; run := AtSend; waitChan := waitChan s;
                  probing := probing s; releasing := releasing s;
                  stopper := stopper s |}
      | _ => None
      end
  | Launched =>
      match run s with
      | AtSend =>
          if (waitChan s <? MaxConcurrentJobs)%nat then
            Some {| sched := sched s; run := AtSelect;
                    waitChan := S (waitChan s); probing := S (probing s);
                    releasing := releasing s; stopper := stopper s |}
          else None
      | _ => None
      end
  | LoopStopped =>
      match run s with
      | AtSelect =>
          if stop (sched s) then
            Some {| sched := set_wg (sched s) (Nat.pred (wg (sched s)));
                    run := Exited; waitChan := waitChan s;
                    probing := probing s; releasing := releasing s;
                    stopper := stopper s |}
          else None
      | _ => None
      end
  | Probed data =>
      match probing s with
      | O => None
      | S n =>
          match ping (sched s) data with
          | Ret t' =>
              Some {| sched := t'; run := run s; waitChan := waitChan s;
                      probing := n; releasing := S (releasing s);
                      stopper := stopper s |}
          | Panic _ => None
          end
      end
  | Released =>
      match releasing s, waitChan s with
      | S n, S c =>
          Some {| sched := sched s; run := run s; waitChan := c;
                  probing := probing s; releasing := n;
                  stopper := stopper s |}
      | _, _ => None
      end
  | StopCalled =>
      match stopper s with
      | NotCalled =>
          Some {| sched := set_stop (sched s) true; run := run s;
                  waitChan := waitChan s; probing := probing s;
                  releasing := releasing s; stopper := AtWait |}
      | _ => None
      end
  | StopReturned =>
      match stopper s, wg (sched s) with
      | AtWait, O =>
          Some {| sched := sched s; run := run s; waitChan := waitChan s;
                  probing := probing s; releasing := releasing s;
                  stopper := Returned |}
      | _, _ => None
      end
  end.

(** A run: the events in order, [None] when one of them cannot happen. *)
Fixpoint exec (es : list event) (s : system) : option system :=
  match es with
  | [] => Some s
  | e :: es' =>
      match step e s with
      | Some s' => exec es' s'
      | None => None
      end
  end.

(** [NewPing]: the object it returns and the goroutine it starts.  The loop
    builds its ticker from [interval]; the transition system does not look
    at the value, so it has every run of the program for a positive
    interval. *)
Definition NewPing (startupDelay : Z) (name host ip srcAddr : string)
    (interval timeout count : Z) (labels : gmap string string) (ipv6 : bool)
    (zero : W) : system :=
  {| sched :=
       {| name := name; host := host; ip := ip; srcAddr := srcAddr;
          interval := interval; timeout := timeout; count := count;
          ipv6 := ipv6; labels := labels;
          result := Some {| Windowed := zero; SntSummary := 0;
                            SntFailSummary := 0; SntTimeSummary := 0 |};
          stop := false; wg := 1 |};
     run := if 0 <? startupDelay then AtDelay else AtSelect;
     waitChan := 0; probing := 0; releasing := 0; stopper := NotCalled |}.

(** The samples merged during a run, in order. *)
Definition samples (es : list event) : list PingResult :=
  omap (fun e => match e with Probed (Some d) => Some d | _ => None end) es.

End scheduler.

Arguments PingResult : clear implicits.
Arguments PING : clear implicits.
Arguments system : clear implicits.
Arguments event : clear implicits.

End target.

(** * Vocabulary of the properties *)

Import regexp config.

(** ** Target types and duplicates *)

(** The five probe types a target can declare. *)
Definition declared_types : list string :=
  ["ICMP"; "MTR"; "ICMP+MTR"; "TCP"; "HTTPGet"].

Definition declared (t : Target) : Prop := Type_ t ∈ declared_types.

(** Two declared types occupy a common namespace: they are the same type, or
    one is the compound type and the other ICMP or MTR. *)
Definition same_namespace (ty1 ty2 : string) : Prop :=
  ty1 = ty2 \/
  (ty1 = "ICMP+MTR" /\ (ty2 = "ICMP" \/ ty2 = "MTR")) \/
  ((ty1 = "ICMP" \/ ty1 = "MTR") /\ ty2 = "ICMP+MTR").

Definition conflict (t u : Target) : Prop :=
  Name t = Name u /\ same_namespace (Type_ t) (Type_ u).

(** Two entries of the list with one name in a common namespace. *)
Definition duplicate_pair (m : Targets) : Prop :=
  exists (i j : nat) (t u : Target),
    (i < j)%nat /\ m !! i = Some t /\ m !! j = Some u /\ conflict t u.

Definition duplicate_error (t : Target) : string :=
  "found duplicated record: " ++ Name t.

(** The same in terms of the loop: the keys of the outer map that a type
    reads and writes, and whether a target finds one of its entries set. *)
Definition namespaces (ty : string) : list string :=
  if String.eqb ty "ICMP+MTR" then ["MTR"; "ICMP"] else [ty].

Definition in_namespace (ns ty : string) : bool :=
  existsb (String.eqb ns) (namespaces ty).

Definition shares (ty1 ty2 : string) : bool :=
  existsb (fun ns => in_namespace ns ty2) (namespaces ty1).

Definition clash (tmp : gmap string (gmap string bool)) (t : Target) : bool :=
  existsb (fun ns => seen tmp ns (Name t)) (namespaces (Type_ t)).

(** The outer map keeps the four keys of its literal. *)
Definition keys : gset string := {["TCP"; "ICMP"; "MTR"; "HTTPGet"]}.

Definition keys_ok (tmp : gmap string (gmap string bool)) : Prop :=
  dom tmp = keys.

(** ** The loop and the stages of a reload *)

(** The expression that [MustCompile pattern] returns. *)
Definition re : Regexp :=
  Eval vm_compute in
    match Compile pattern with Some r => r | None => EmptyMatch end.

(** How often the filter appends a target: once without a [probe] list,
    otherwise once for every element equal to the host name. *)
Definition times (hostname : string) (t : Target) : nat :=
  match Probe t with
  | None => 1%nat
  | Some ps => List.length (List.filter (fun p => String.eqb p hostname) ps)
  end.

(** A world without a configuration and without log records. *)
Definition quiet : world := {| live := {| Cfg := None |}; logged := [] |}.

(** What one round adds to the list, whatever the list and the log are. *)
Definition yield (env : Env) (hostname : string) (t : Target) : go Targets :=
  fst (validate_one env hostname re t [] quiet).

(** The check on a TCP target with an SRV host passes: the second label of
    the host, without its first byte, is "tcp" in any letter case. *)
Definition srv_protocol_ok (t : Target) : Prop :=
  Type_ t = "TCP" ->
  exists proto,
    srv_proto (Host t) = Ret proto /\ strings.EqualFold "TCP" proto = true.

(** The run up to the duplicate check: the environment delivers a host name
    and a configuration [c], and the loop over its targets leaves
    [targets]. *)
Definition resolves (env : Env) (confFile : string) (w : world)
    (hostname : string) (c : Config) (targets : Targets) (w' : world) : Prop :=
  exists f c0,
    os_Hostname env = Val hostname /\ os_Open env confFile = Val f /\
    yaml_Decode env f = Val c0 /\ defaults_Set env c0 = Val c /\
    validate_all env hostname re (Config_Targets c) [] w = (Ret targets, w').

(** The world after a successful reload that resolved [c] and logged up to
    [w']. *)
Definition installed (c : Config) (w' : world) : world :=
  {| live := {| Cfg := Some c |}; logged := logged w' |}.

(** The conditions of the three sanity checks. *)
Definition interval_not_positive (c : Config) : Prop :=
  ICMP_Interval (Config_ICMP c) <= 0 \/ MTR_Interval (Config_MTR c) <= 0 \/
  TCP_Interval (Config_TCP c) <= 0 \/ HTTPGet_Interval (Config_HTTPGet c) <= 0.

Definition max_hops_out_of_bounds (c : Config) : Prop :=
  MTR_MaxHops (Config_MTR c) < 0 \/ 65500 < MTR_MaxHops (Config_MTR c).

Definition count_out_of_bounds (c : Config) : Prop :=
  MTR_Count (Config_MTR c) < 0 \/ 65500 < MTR_Count (Config_MTR c).

(** ** Concrete inputs *)

(** A target with the fields that matter; a configuration with the default
    parameters (intervals of 5s and 15s, timeouts of 4s and 14s, in
    nanoseconds) around a hop limit and a target list; an environment that
    delivers a host name and a configuration. *)
Definition target_of (n h ty : string) (pr : option (list string)) : Target :=
  {| Name := n; Host := h; Type_ := ty; Proxy := ""; Probe := pr;
     SourceIp := ""; Labels := {| Kv := ∅ |} |}.

Definition config_of (max_hops : Z) (ts : Targets) : Config :=
  {| Config_Conf :=
       {| Refresh := 0; Nameserver := ""; NameserverTimeout := 250000000 |};
     Config_ICMP :=
       {| ICMP_Interval := 5000000000; ICMP_Timeout := 4000000000;
          ICMP_Count := 10 |};
     Config_MTR :=
       {| MTR_Interval := 5000000000; MTR_Timeout := 4000000000;
          MTR_MaxHops := max_hops; MTR_Count := 10 |};
     Config_TCP := {| TCP_Interval := 5000000000; TCP_Timeout := 4000000000 |};
     Config_HTTPGet :=
       {| HTTPGet_Interval := 15000000000; HTTPGet_Timeout := 14000000000 |};
     Config_Targets := ts |}.

Definition env_of (hostname : string) (c : Config) (srv : string -> bool)
    (lookup : string -> res (list string)) : Env :=
  {| os_Hostname := Val hostname; os_Open := fun _ => Val "";
     yaml_Decode := fun _ => Val c; defaults_Set := fun c => Val c;
     common_SrvRecordCheck := srv; common_SrvRecordHosts := lookup |}.

(** No host is an SRV record; every host is one; every lookup fails. *)
Definition literal_hosts : string -> bool := fun _ => false.

Definition srv_hosts : string -> bool := fun _ => true.

Definition no_lookup : string -> res (list string) :=
  fun _ => Failed "no such host".

(** A world in which an earlier reload has installed a configuration. *)
Definition running : world :=
  {| live :=
       {| Cfg := Some (config_of 30 [target_of "old" "192.0.2.1" "ICMP" None]) |};
     logged := [] |}.

(** ** The pattern *)

(** What the compiled pattern accepts, in words of substrings: a type that
    begins with ICMP, or contains MTR or TCP, or ends with HTTPGet. *)
Definition begins_with (p s : string) : Prop := exists rest, s = p ++ rest.

Definition contains (p s : string) : Prop :=
  exists pre rest, s = pre ++ p ++ rest.

Definition ends_with (p s : string) : Prop := exists pre, s = pre ++ p.

Definition accepted (ty : string) : Prop :=
  begins_with "ICMP" ty \/ contains "MTR" ty \/ contains "TCP" ty \/
  ends_with "HTTPGet" ty.

(** The bytes of [p] one after the other, then [k]. *)
Definition then_ (p : string) (k : Regexp) : Regexp :=
  fold_right (fun c r => Concat (Literal c) r) k (list_ascii_of_string p).

(** ** The scheduler *)

(** A sample whose three counts are not negative. *)
Definition nonneg {W : Type} (d : target.PingResult W) : Prop :=
  0 <= target.SntSummary d /\ 0 <= target.SntFailSummary d /\
  0 <= target.SntTimeSummary d.

(** The three counters of a stored result fit their 64-bit types. *)
Definition counters_in_range {W : Type} (r : target.PingResult W) : Prop :=
  int64.in_range (target.SntSummary r) /\
  int64.in_range (target.SntFailSummary r) /\
  int64.in_range (target.SntTimeSummary r).

(** The exact total of one counter over a list of samples. *)
Definition total {W : Type} (f : target.PingResult W -> Z)
    (ds : list (target.PingResult W)) : Z :=
  foldr (fun d acc => f d + acc) 0 ds.

(** No counter exceeds the largest 64-bit value when the samples [ds] are
    added to the stored result [r]. *)
Definition no_overflow {W : Type} (r : target.PingResult W)
    (ds : list (target.PingResult W)) : Prop :=
  target.SntSummary r + total target.SntSummary ds <= int64.max /\
  target.SntFailSummary r + total target.SntFailSummary ds <= int64.max /\
  target.SntTimeSummary r + total target.SntTimeSummary ds <= int64.max.

(** Counter by counter, [r'] is not below [r]. *)
Definition counters_le {W : Type} (r r' : target.PingResult W) : Prop :=
  target.SntSummary r <= target.SntSummary r' /\
  target.SntFailSummary r <= target.SntFailSummary r' /\
  target.SntTimeSummary r <= target.SntTimeSummary r'.

(** What holds in every state a scheduler reaches: the loop has returned
    once the wait group is at zero and once [Stop] is back, and every token
    in [waitChan] belongs to one launched goroutine. *)
Definition scheduler_inv {W : Type} (s : target.system W) : Prop :=
  (target.wg (target.sched s) = 0%nat -> target.run s = target.Exited) /\
  (target.stopper s = target.Returned -> target.run s = target.Exited) /\
  target.waitChan s = (target.probing s + target.releasing s)%nat /\
  (target.waitChan s <= target.MaxConcurrentJobs)%nat.

(** The number of goroutines that finish their probe during a run. *)
Definition merges {W : Type} (es : list (target.event W)) : nat :=
  List.length (target.samples es).

(** A scheduler for one target, started without delay, and two samples. *)
Definition demo : target.system unit :=
  target.NewPing 0 "db1" "db1.example.org" "192.0.2.7" "" 5000000000
    4000000000 10 ∅ false tt.

Definition sample (sent : Z) : target.PingResult unit :=
  {| target.Windowed := tt; target.SntSummary := sent;
     target.SntFailSummary := 0; target.SntTimeSummary := 0 |}.

(** The sent counter that [Compute] shows after a run of [demo]. *)
Definition sent_after (es : list (target.event unit)) : option Z :=
  match target.exec es demo with
  | Some s => target.SntSummary <$> target.Compute (target.sched s)
  | None => None
  end.

(** ** Further vocabulary *)

(** The panic of an assignment into the nil map. *)
Definition nil_map_panic : string := "assignment to entry in nil map".

(** The three error records of the loop, and the world with one more
    record. *)
Definition unknown_type_record (t : Target) : LogRecord :=
  {| level := "ERROR"; msg := "Unknown check type";
     attrs := [("type", "Config"); ("func", "ReloadConfig");
               ("target", Name t); ("check_type", Type_ t);
               ("allowed", "(ICMP|MTR|ICMP+MTR|TCP|HTTPGet)")] |}.

Definition protocol_record (t : Target) (proto : string) : LogRecord :=
  {| level := "ERROR";
     msg := "Target type doesn't match SRV record protocol";
     attrs := [("type", "Config"); ("func", "ReloadConfig");
               ("target", Name t); ("check_type", Type_ t);
               ("srv_proto", proto)] |}.

Definition lookup_record (t : Target) (err : string) : LogRecord :=
  {| level := "ERROR"; msg := "Error processing SRV record";
     attrs := [("type", "Config"); ("func", "ReloadConfig");
               ("target", Host t); ("err", err)] |}.

Definition log_to (w : world) (r : LogRecord) : world :=
  {| live := live w; logged := (logged w ++ [r])%list |}.

Definition loop_messages : list string :=
  ["Unknown check type"; "Target type doesn't match SRV record protocol";
   "Error processing SRV record"].

Definition loop_record (r : LogRecord) : Prop :=
  level r = "ERROR" /\ msg r ∈ loop_messages.

(** The spellings of the protocol label that fold to TCP. *)
Definition tcp_spellings : list string :=
  ["TCP"; "TCp"; "TcP"; "Tcp"; "tCP"; "tCp"; "tcP"; "tcp"].

(** The target is unassigned or assigned to the runner. *)
Definition assigned_to (hostname : string) (r : Target) : Prop :=
  Probe r = None \/ exists ps, Probe r = Some ps /\ hostname ∈ ps.

(** Where a resolved target comes from: it is a target of the file with a
    literal host, or the expansion of a target of the file with an SRV host
    to one of the hosts its lookup returned. *)
Definition resolved_from (env : Env) (ts : Targets) (r : Target) : Prop :=
  exists t, t ∈ ts /\
    ((r = t /\ common_SrvRecordCheck env (Host t) = false) \/
     (common_SrvRecordCheck env (Host t) = true /\
      exists hosts h,
        common_SrvRecordHosts env (Host t) = Val hosts /\ h ∈ hosts /\
        r = sub_target t h)).

(** A string without the byte of the separator. *)
Fixpoint no_dot (s : string) : bool :=
  match s with
  | EmptyString => true
  | String c s' => negb (Ascii.eqb c ".") && no_dot s'
  end.

(** The file is opened and decoded, and the defaults are set, giving [c]. *)
Definition reads (env : Env) (confFile : string) (c : Config) : Prop :=
  exists f c0,
    os_Open env confFile = Val f /\ yaml_Decode env f = Val c0 /\
    defaults_Set env c0 = Val c.

(** ** Further vocabulary of the scheduler *)

(** The protocol of [Stop]: the channel is closed exactly from the call on,
    the loop returns only after that, the wait group counts the loop, and
    the call returns only after the loop. *)
Definition stop_inv {W : Type} (s : target.system W) : Prop :=
  (target.stop (target.sched s) = true <->
   target.stopper s <> target.NotCalled) /\
  (target.run s = target.Exited -> target.stop (target.sched s) = true) /\
  target.wg (target.sched s) =
    (match target.run s with target.Exited => 0 | _ => 1 end)%nat /\
  (target.stopper s = target.Returned -> target.run s = target.Exited).

(** The fields that [NewPing] sets once. *)
Definition same_identity {W : Type} (t t' : target.PING W) : Prop :=
  target.Name t = target.Name t' /\ target.Host t = target.Host t' /\
  target.Ip t = target.Ip t' /\ target.Labels t = target.Labels t' /\
  target.srcAddr t = target.srcAddr t' /\
  target.interval t = target.interval t' /\
  target.timeout t = target.timeout t' /\ target.count t = target.count t' /\
  target.ipv6 t = target.ipv6 t'.

(** The windowed fields of the last sample of a run, [zero] before the
    first. *)
Definition last_windowed {W : Type} (zero : W)
    (ds : list (target.PingResult W)) : W :=
  match last ds with
  | Some d => target.Windowed d
  | None => zero
  end.

(** The firings of the ticker and the launches of a probe in a run. *)
Definition ticks {W : Type} (es : list (target.event W)) : nat :=
  List.length
    (List.filter (fun e => match e with target.Ticked => true | _ => false end)
       es).

Definition launches {W : Type} (es : list (target.event W)) : nat :=
  List.length
    (List.filter (fun e => match e with target.Launched => true | _ => false end)
       es).

Definition calls_Stop {W : Type} (es : list (target.event W)) : Prop :=
  target.StopCalled ∈ es.

(** The loop blocked on the full channel, with every launched goroutine
    still probing. *)
Definition gate_blocked {W : Type} (s : target.system W) : Prop :=
  target.run s = target.AtSend /\
  target.waitChan s = target.MaxConcurrentJobs /\
  target.releasing s = 0%nat /\ target.wg (target.sched s) = 1%nat.

(** * Tactics *)

(** Membership in a list that is written out. *)
Ltac in_list :=
  solve [repeat first [apply list_elem_of_here | apply list_elem_of_further]].

(** Every target of a list that is written out has a declared type. *)
Ltac declared_types_tac :=
  repeat constructor; unfold declared, declared_types; cbn; in_list.

(** Case analysis on the matches of a step that happened. *)
Ltac step_cases H :=
  repeat match type of H with
  | context [match ?x with _ => _ end] => destruct x eqn:?; try discriminate
  end.

(** * Duplicate detection and the loop of ReloadConfig *)

Lemma keys_ok_init : keys_ok tmp_init.
Proof.
  unfold keys_ok, tmp_init, keys. rewrite !dom_insert_L, dom_empty_L.
  set_solver.
Qed.

Lemma keys_ok_lookup tmp ns :
  keys_ok tmp -> ns ∈ keys -> exists names, tmp !! ns = Some names.
Proof.
  intros Hk Hin. rewrite <- Hk in Hin. apply elem_of_dom in Hin.
  destruct Hin as [names H]. eauto.
Qed.

Lemma keys_ok_missing tmp ns :
  keys_ok tmp -> ns ∉ keys -> tmp !! ns = None.
Proof.
  intros Hk Hin. rewrite <- Hk in Hin. by apply not_elem_of_dom.
Qed.

Lemma mark_ok tmp ns n :
  keys_ok tmp -> ns ∈ keys ->
  exists tmp', mark tmp ns n = Ret tmp' /\ keys_ok tmp' /\
    forall ns' n', seen tmp' ns' n' = seen tmp ns' n' || (String.eqb ns' ns && String.eqb n' n).
Proof.
  intros Hk Hin. destruct (keys_ok_lookup tmp ns Hk Hin) as [names Hl].
  unfold mark. rewrite Hl. eexists. split; [reflexivity|]. split.
  - unfold keys_ok in *. rewrite dom_insert_L, <- Hk.
    apply subseteq_union_1_L, singleton_subseteq_l.
    by apply elem_of_dom_2 in Hl.
  - intros ns' n'. unfold seen.
    destruct (String.eqb_spec ns' ns) as [->|Hne].
    + rewrite lookup_insert_eq, Hl.
      destruct (String.eqb_spec n' n) as [->|Hne'].
      * rewrite lookup_insert_eq. simpl. by rewrite orb_true_r.
      * rewrite lookup_insert_ne by done. simpl. by rewrite orb_false_r.
    + rewrite lookup_insert_ne by done. simpl. by rewrite orb_false_r.
Qed.

Lemma declared_cases t :
  declared t ->
  Type_ t = "ICMP+MTR" \/ (Type_ t <> "ICMP+MTR" /\ Type_ t ∈ keys).
Proof.
  unfold declared, declared_types, keys. rewrite !elem_of_cons, elem_of_nil.
  intros H. 
  destruct H as [H|[H|[H|[H|[H|[]]]]]]; rewrite H; auto; right; (split; [discriminate | set_solver]).
Qed.

(** One round of the loop on a declared type. *)
Lemma HasDuplicateTargets_round tmp t m :
  keys_ok tmp -> declared t ->
  exists tmp',
    HasDuplicateTargets_from tmp (t :: m) =
      (if clash tmp t then duplicated (Name t)
       else HasDuplicateTargets_from tmp' m) /\
    keys_ok tmp' /\
    forall ns n,
      seen tmp' ns n =
      seen tmp ns n || (in_namespace ns (Type_ t) && String.eqb n (Name t)).
Proof.
  intros Hk Hd. destruct (declared_cases t Hd) as [Hc|[Hc Hin]].
  - assert (HM : "MTR" ∈ keys) by (unfold keys; set_solver).
    assert (HI : "ICMP" ∈ keys) by (unfold keys; set_solver).
    destruct (mark_ok tmp "MTR" (Name t) Hk HM) as (tmp1 & E1 & K1 & S1).
    destruct (mark_ok tmp1 "ICMP" (Name t) K1 HI) as (tmp2 & E2 & K2 & S2).
    exists tmp2. split; [|split; [done|]].
    + simpl. unfold clash, namespaces. rewrite Hc. simpl.
      destruct (seen tmp "MTR" (Name t)); [done|]. simpl.
      rewrite E1, S1. simpl. rewrite orb_false_r.
      destruct (seen tmp "ICMP" (Name t)); [done|]. by rewrite E2.
    + intros ns n. rewrite S2, S1. unfold in_namespace, namespaces.
      rewrite Hc. simpl. 
      destruct (seen tmp ns n), (String.eqb ns "MTR"), (String.eqb ns "ICMP"),
        (String.eqb n (Name t)); reflexivity.
  - destruct (mark_ok tmp (Type_ t) (Name t) Hk Hin) as (tmp1 & E1 & K1 & S1).
    exists tmp1. split; [|split; [done|]].
    + simpl. unfold clash, namespaces.
      apply String.eqb_neq in Hc. rewrite Hc. simpl. rewrite orb_false_r.
      destruct (seen tmp (Type_ t) (Name t)); [done|]. by rewrite E1.
    + intros ns n. rewrite S1. unfold in_namespace, namespaces.
      apply String.eqb_neq in Hc. rewrite Hc. simpl. by rewrite orb_false_r.
Qed.

Lemma clash_false tmp t :
  clash tmp t = false <->
  forall ns, in_namespace ns (Type_ t) = true -> seen tmp ns (Name t) = false.
Proof.
  unfold clash, in_namespace. split.
  - intros H ns Hns. apply existsb_exists in Hns as (x & Hx & E).
    apply String.eqb_eq in E. subst x.
    destruct (seen tmp ns (Name t)) eqn:S; [|done].
    assert (existsb (fun ns => seen tmp ns (Name t)) (namespaces (Type_ t)) = true)
      by (apply existsb_exists; eauto).
    congruence.
  - intros H. apply not_true_is_false. intros C.
    apply existsb_exists in C as (x & Hx & E).
    rewrite H in E; [done|]. apply existsb_exists. exists x. split; [done|].
    apply String.eqb_refl.
Qed.

Lemma shares_true ty1 ty2 :
  shares ty1 ty2 = true <->
  exists ns, in_namespace ns ty1 = true /\ in_namespace ns ty2 = true.
Proof.
  unfold shares. rewrite existsb_exists. split.
  - intros (ns & Hin & H). exists ns. split; [|done].
    unfold in_namespace. apply existsb_exists. exists ns. split; [done|].
    apply String.eqb_refl.
  - intros (ns & H1 & H2). exists ns. split; [|done].
    unfold in_namespace in H1. apply existsb_exists in H1 as (x & Hx & E).
    apply String.eqb_eq in E. by subst.
Qed.

Lemma in_namespace_true ns ty :
  in_namespace ns ty = true <->
  (ty = "ICMP+MTR" /\ (ns = "MTR" \/ ns = "ICMP")) \/
  (ty <> "ICMP+MTR" /\ ns = ty).
Proof.
  unfold in_namespace, namespaces.
  destruct (String.eqb_spec ty "ICMP+MTR") as [->|N]; cbn [existsb];
    rewrite ?orb_true_iff, ?orb_false_r, ?String.eqb_eq.
  - split.
    + intros [H|[H|H]]; try discriminate; auto.
    + intros [[_ [H|H]]|[H _]]; auto; congruence.
  - split.
    + intros [H|H]; try discriminate; auto.
    + intros [[H _]|[_ H]]; [congruence|auto].
Qed.

Lemma shares_same_namespace ty1 ty2 :
  shares ty1 ty2 = true <-> same_namespace ty1 ty2.
Proof.
  rewrite shares_true. unfold same_namespace. split.
  - intros (ns & H1 & H2). apply in_namespace_true in H1, H2.
    destruct H1 as [[-> H1]|[N1 ->]], H2 as [[-> H2]|[N2 E]]; auto.
    + right. left. split; [done|]. rewrite <- E. destruct H1; auto.
    + right. right. split; [|done]. destruct H2; auto.
  - destruct (String.eqb_spec ty1 "ICMP+MTR") as [E1|N1].
    + intros H. exists (if String.eqb ty2 "ICMP" then "ICMP" else "MTR").
      rewrite !in_namespace_true. subst ty1.
      destruct (String.eqb_spec ty2 "ICMP") as [->|N].
      * split; [auto|]. right. split; [intros [=]|done].
      * split; [auto|].
        destruct H as [<-|[[_ [H|H]]|[[H|H] _]]]; auto; try congruence.
        right. subst. split; [intros [=]|done].
    + intros H. exists ty1. rewrite !in_namespace_true. split; [auto|].
      destruct H as [<-|[[H _]|[H ->]]]; auto; try congruence.
      left. split; [done|]. destruct H; auto.
Qed.

Lemma duplicate_pair_cons t m :
  duplicate_pair (t :: m) <->
  (exists u, u ∈ m /\ conflict t u) \/ duplicate_pair m.
Proof.
  split.
  - intros (i & j & a & b & Hlt & Hi & Hj & C).
    destruct j as [|j]; [lia|]. destruct i as [|i].
    + left. simpl in Hi, Hj. injection Hi as ->. exists b. split; [|done].
      apply list_elem_of_lookup. eauto.
    + right. exists i, j, a, b. simpl in Hi, Hj. repeat split; try done; try apply C. lia.
  - intros [(u & Hu & C)|(i & j & a & b & Hlt & Hi & Hj & C)].
    + apply list_elem_of_lookup in Hu as [j Hj].
      exists O, (S j), t, u. repeat split; try done; try apply C. lia.
    + exists (S i), (S j), a, b. repeat split; try done; try apply C. lia.
Qed.

(** The loop never panics on declared types. *)
Lemma HasDuplicateTargets_from_total tmp m :
  keys_ok tmp -> Forall declared m ->
  HasDuplicateTargets_from tmp m = Ret (false, None) \/
  exists t, t ∈ m /\ HasDuplicateTargets_from tmp m = duplicated (Name t).
Proof.
  intros Hk Hd. revert tmp Hk. induction Hd as [|t m Ht Hm IH]; intros tmp Hk.
  - by left.
  - destruct (HasDuplicateTargets_round tmp t m Hk Ht) as (tmp' & E & K & _).
    rewrite E. destruct (clash tmp t).
    + right. exists t. split; [apply list_elem_of_here|done].
    + destruct (IH tmp' K) as [H|(u & Hu & H)]; [by left|].
      right. exists u. split; [by apply list_elem_of_further|done].
Qed.

(** It returns no error exactly when nothing clashes. *)
Lemma HasDuplicateTargets_from_clean tmp m :
  keys_ok tmp -> Forall declared m ->
  HasDuplicateTargets_from tmp m = Ret (false, None) <->
  (forall t, t ∈ m -> clash tmp t = false) /\ ~ duplicate_pair m.
Proof.
  intros Hk Hd. revert tmp Hk. induction Hd as [|t m Ht Hm IH]; intros tmp Hk.
  - split; [|done]. intros _. split.
    + intros t Ht. by apply elem_of_nil in Ht.
    + intros (i & j & a & b & _ & Hi & _). by destruct i.
  - destruct (HasDuplicateTargets_round tmp t m Hk Ht) as (tmp' & E & K & S).
    rewrite E, duplicate_pair_cons. 
    assert (Hstep : forall u, clash tmp' u = false <->
              clash tmp u = false /\ ~ conflict t u).
    { intros u. rewrite !clash_false. unfold conflict.
      rewrite <- shares_same_namespace, shares_true. split.
      - intros H. split.
        + intros ns Hns. specialize (H ns Hns). rewrite S in H.
          by apply orb_false_iff in H as [H _].
        + intros (En & ns & H1 & H2). specialize (H ns H2). rewrite S in H.
          apply orb_false_iff in H as [_ H]. rewrite H1, En, String.eqb_refl in H.
          done.
      - intros [H C] ns Hns. rewrite S, (H ns Hns). simpl.
        apply not_true_is_false. intros B. apply andb_true_iff in B as [B1 B2].
        apply String.eqb_eq in B2. apply C. split; [done|]. eauto. }
    destruct (clash tmp t) eqn:Ct.
    + split; [done|]. intros [H _]. rewrite H in Ct; [done|apply list_elem_of_here].
    + rewrite (IH tmp' K). split.
      * intros [H NC]. split.
        -- intros u Hu. apply elem_of_cons in Hu as [->|Hu]; [done|].
           by apply Hstep, H.
        -- intros [(u & Hu & C)|C]; [|done].
           by apply (proj1 (Hstep u) (H u Hu)).
      * intros [H NC]. split.
        -- intros u Hu. apply Hstep. split.
           ++ apply H. by apply list_elem_of_further.
           ++ intros C. apply NC. left. eauto.
        -- intros C. apply NC. by right.
Qed.

Lemma clash_init t : declared t -> clash tmp_init t = false.
Proof.
  intros Hd. apply clash_false. intros ns _. unfold seen, tmp_init.
  rewrite !lookup_insert. repeat case_decide; try done. 
Qed.

Lemma MustCompile_pattern : MustCompile pattern = Ret re.
Proof. reflexivity. Qed.

Lemma probe_filter_eq hostname t targets :
  probe_filter hostname t targets =
  (targets ++ replicate (times hostname t) t)%list.
Proof.
  unfold probe_filter, times. destruct (Probe t) as [ps|]; [|done].
  revert targets. induction ps as [|p ps IH]; intros targets; simpl.
  - by rewrite app_nil_r.
  - rewrite IH. destruct (p =? hostname)%string; simpl; [|done].
    by rewrite <- app_assoc.
Qed.

Lemma expand_eq hostname t hosts targets :
  expand hostname t hosts targets =
  (targets ++
   flat_map (fun h => replicate (times hostname t) (sub_target t h)) hosts)%list.
Proof.
  unfold expand. revert targets. induction hosts as [|h hosts IH]; intros targets; simpl.
  - by rewrite app_nil_r.
  - rewrite IH, probe_filter_eq. by rewrite <- app_assoc.
Qed.

Lemma validate_one_fst env hostname t targets w :
  fst (validate_one env hostname re t targets w) =
  match yield env hostname t with
  | Ret added => Ret (targets ++ added)%list
  | Panic e => Panic e
  end.
Proof.
  unfold yield, validate_one, bind_M, unit_M, lift, unknown_check_type, logger_Error.
  destruct (common_SrvRecordCheck env (Host t)).
  - destruct (MatchString re (Type_ t)); simpl; [|by rewrite app_nil_r].
    destruct (Type_ t =? "TCP")%string; simpl.
    + destruct (srv_proto (Host t)) as [proto|e]; simpl; [|done].
      destruct (strings.EqualFold (Type_ t) proto); simpl; [|by rewrite app_nil_r].
      destruct (common_SrvRecordHosts env (Host t)); simpl; [|by rewrite app_nil_r].
      by rewrite !expand_eq.
    + destruct (common_SrvRecordHosts env (Host t)); simpl; [|by rewrite app_nil_r].
      by rewrite !expand_eq.
  - destruct (MatchString re (Type_ t)); simpl; [|by rewrite app_nil_r].
    by rewrite !probe_filter_eq.
Qed.

Lemma validate_one_live env hostname t targets w :
  live (snd (validate_one env hostname re t targets w)) = live w.
Proof.
  unfold validate_one, bind_M, unit_M, lift, unknown_check_type, logger_Error.
  destruct (common_SrvRecordCheck env (Host t)).
  - destruct (MatchString re (Type_ t)); simpl; [|done].
    destruct (Type_ t =? "TCP")%string; simpl.
    + destruct (srv_proto (Host t)) as [proto|e]; simpl; [|done].
      destruct (strings.EqualFold (Type_ t) proto); simpl; [|done].
      by destruct (common_SrvRecordHosts env (Host t)).
    + by destruct (common_SrvRecordHosts env (Host t)).
  - by destruct (MatchString re (Type_ t)).
Qed.

Lemma validate_all_live env hostname ts targets w :
  live (snd (validate_all env hostname re ts targets w)) = live w.
Proof.
  revert targets w. induction ts as [|t ts IH]; intros targets w; simpl; [done|].
  unfold bind_M.
  pose proof (validate_one_live env hostname t targets w) as H.
  destruct (validate_one env hostname re t targets w) as [[r|e] w1]; simpl in *.
  - by rewrite IH.
  - done.
Qed.



Lemma ReloadConfig_resolved env confFile w hostname c targets w' :
  resolves env confFile w hostname c targets w' ->
  ReloadConfig env confFile w =
  match HasDuplicateTargets targets with
  | Panic e => (Panic e, w')
  | Ret (_, Some err) => (Ret (Some ("parsing config file: " ++ err)), w')
  | Ret (_, None) =>
      match precheck (set_Targets c targets) with
      | Some err => (Ret (Some err), w')
      | None =>
          (Ret None,
           {| live := {| Cfg := Some (set_Targets c targets) |};
              logged := logged w' |})
      end
  end.
Proof.
  intros (f & c0 & Hh & Ho & Hd & Hs & Hv).
  unfold ReloadConfig. rewrite Hh, Ho, Hd, Hs, MustCompile_pattern.
  unfold bind_M at 1. unfold lift at 1. 
  unfold bind_M at 1. rewrite Hv. 
  unfold bind_M, lift, unit_M, store_Cfg. simpl.
  destruct (HasDuplicateTargets targets) as [[b [err|]]|e]; simpl; try done.
  by destruct (precheck (set_Targets c targets)).
Qed.

Lemma resolves_live env confFile w hostname c targets w' :
  resolves env confFile w hostname c targets w' -> live w' = live w.
Proof.
  intros (f & c0 & _ & _ & _ & _ & Hv).
  pose proof (validate_all_live env hostname (Config_Targets c) [] w) as H.
  by rewrite Hv in H.
Qed.

(** The list the loop leaves, from what the rounds yield. *)
Lemma validate_all_yields env hostname ts acc w targets :
  fst (validate_all env hostname re ts acc w) = Ret targets <->
  exists ys,
    Forall2 (fun t y => yield env hostname t = Ret y) ts ys /\
    targets = (acc ++ List.concat ys)%list.
Proof.
  revert acc w targets. induction ts as [|t ts IH]; intros acc w targets.
  - simpl. split.
    + intros [= <-]. exists []. split; [constructor|]. simpl.
      by rewrite app_nil_r.
    + intros (ys & F & ->). apply Forall2_nil_inv_l in F as ->. simpl.
      by rewrite app_nil_r.
  - cbn [validate_all]. unfold bind_M.
    pose proof (validate_one_fst env hostname t acc w) as H.
    destruct (validate_one env hostname re t acc w) as [[x|e] w1]; simpl in H.
    + destruct (yield env hostname t) as [added|] eqn:Y; [|done].
      injection H as ->. rewrite IH. split.
      * intros (ys & F & ->). exists (added :: ys). split; [by constructor|].
        simpl. by rewrite app_assoc.
      * intros (ys & F & ->).
        apply Forall2_cons_inv_l in F as (y & ys' & Hy & F & ->).
        rewrite Y in Hy. injection Hy as <-. exists ys'. split; [done|].
        simpl. by rewrite app_assoc.
    + simpl. split; [done|]. intros (ys & F & _).
      apply Forall2_cons_inv_l in F as (y & ys' & Hy & _ & _).
      destruct (yield env hostname t); [done|]. discriminate.
Qed.

(** The list the loop leaves does not depend on the log. *)
Lemma validate_all_fst_indep env hostname ts acc w w0 :
  fst (validate_all env hostname re ts acc w) =
  fst (validate_all env hostname re ts acc w0).
Proof.
  revert acc w w0. induction ts as [|t ts IH]; intros acc w w0; [done|].
  cbn [validate_all]. unfold bind_M.
  pose proof (validate_one_fst env hostname t acc w) as H1.
  pose proof (validate_one_fst env hostname t acc w0) as H2.
  destruct (validate_one env hostname re t acc w) as [r1 w1],
    (validate_one env hostname re t acc w0) as [r2 w2]. simpl in H1, H2.
  rewrite <- H2 in H1. subst r2. destruct r1 as [x|e]; [apply IH|done].
Qed.

(** * What the pattern matches *)

Lemma append_cons c (s t : string) : String c s ++ t = String c (s ++ t).
Proof. reflexivity. Qed.

Lemma append_assoc (a b c : string) : (a ++ b) ++ c = a ++ (b ++ c).
Proof.
  induction a as [|x a IH]; [done|]. by rewrite !append_cons, IH.
Qed.

Lemma append_nil_r (s : string) : s ++ "" = s.
Proof. induction s as [|x s IH]; [done|]. by rewrite append_cons, IH. Qed.

Lemma re_branches :
  re =
  Alternate (Concat BeginText (then_ "ICM" (Literal "P")))
    (Alternate (then_ "MT" (Literal "R"))
       (Alternate
          (then_ "ICM" (Concat (Plus (Literal "P")) (then_ "MT" (Literal "R"))))
          (Alternate (then_ "TC" (Literal "P"))
             (then_ "HTTPGe" (Concat (Literal "t") EndText))))).
Proof. reflexivity. Qed.

Lemma ends_then p k b s q :
  q ∈ ends (then_ p k) (b, s) <->
  exists s', s = p ++ s' /\
    q ∈ ends k ((if p is EmptyString then b else false), s').
Proof.
  unfold then_. revert b s. induction p as [|c p IH]; intros b s; simpl.
  - split; [eauto|]. by intros (s' & -> & H).
  - rewrite list_elem_of_In, in_flat_map. split.
    + intros (x & Hx & Hq). destruct s as [|a s]; [done|].
      destruct (Ascii.eqb_spec a c) as [->|N]; [|done].
      destruct Hx as [<-|[]]. apply list_elem_of_In, IH in Hq as (s' & -> & Hq).
      exists s'. split; [done|]. by destruct p.
    + intros (s' & -> & Hq). exists (false, p ++ s'). split.
      * simpl. rewrite Ascii.eqb_refl. by left.
      * apply list_elem_of_In, IH. exists s'. split; [done|]. by destruct p.
Qed.

Lemma ends_Literal c b s q :
  q ∈ ends (Literal c) (b, s) <-> s = String c (snd q) /\ fst q = false.
Proof.
  simpl. destruct s as [|a s].
  - split; [intros H; by apply elem_of_nil in H|]. by intros [? _].
  - destruct (Ascii.eqb_spec a c) as [->|N].
    + rewrite list_elem_of_singleton. split.
      * by intros ->.
      * intros [[= ->] F]. destruct q. simpl in *. by subst.
    + split; [intros H; by apply elem_of_nil in H|]. intros [[= ? _] _]. done.
Qed.

(** A match ends at a suffix of where it began. *)
Lemma rounds_suffix (f : pos -> list pos) :
  (forall p q, q ∈ f p -> exists pre, snd p = pre ++ snd q) ->
  forall fuel p q, q ∈ rounds f fuel p -> exists pre, snd p = pre ++ snd q.
Proof.
  intros Hf fuel. induction fuel as [|n IH]; intros p q; simpl.
  - intros H. by apply elem_of_nil in H.
  - rewrite elem_of_app. intros [H|H]; [by apply Hf|].
    apply list_elem_of_In, in_flat_map in H as (x & Hx & Hq).
    apply list_elem_of_In, Hf in Hx as [pre1 E1].
    apply list_elem_of_In, IH in Hq as [pre2 E2].
    exists (pre1 ++ pre2). by rewrite E1, E2, append_assoc.
Qed.

Lemma ends_suffix r p q :
  q ∈ ends r p -> exists pre, snd p = pre ++ snd q.
Proof.
  revert p q. induction r as [|c| | |r1 IH1 r2 IH2|r1 IH1 r2 IH2|r IH];
    intros p q.
  - simpl. rewrite list_elem_of_singleton. intros ->. by exists "".
  - destruct p as [b s]. rewrite ends_Literal. intros [-> _].
    by exists (String c "").
  - simpl. destruct (fst p); [|intros H; by apply elem_of_nil in H].
    rewrite list_elem_of_singleton. intros ->. by exists "".
  - simpl. destruct (snd p) eqn:E; [|intros H; by apply elem_of_nil in H].
    rewrite list_elem_of_singleton. intros ->. exists "". by rewrite E.
  - simpl. rewrite list_elem_of_In, in_flat_map. intros (x & Hx & Hq).
    apply list_elem_of_In, IH1 in Hx as [pre1 E1].
    apply list_elem_of_In, IH2 in Hq as [pre2 E2].
    exists (pre1 ++ pre2). by rewrite E1, E2, append_assoc.
  - simpl. rewrite elem_of_app. intros [H|H]; [by apply IH1|by apply IH2].
  - cbn [ends]. apply rounds_suffix. exact IH.
Qed.

(** The positions of a text are its suffixes, the first one marked as the
    beginning. *)
Lemma elem_of_later b q s :
  (b, q) ∈ later s <->
  b = false /\ exists c pre, s = String c pre ++ q.
Proof.
  induction s as [|a s IH]; simpl.
  - split; [intros H; by apply elem_of_nil in H|]. by intros [_ (c & pre & ?)].
  - rewrite elem_of_cons, IH. split.
    + intros [[= -> ->]|[-> (c & pre & ->)]]; (split; [done|]).
      * by exists a, "".
      * exists a, (String c pre). by rewrite !append_cons.
    + intros [-> (c & pre & E)]. rewrite append_cons in E. injection E as <- E.
      destruct pre as [|c' pre]; [left; by rewrite E|].
      right. split; [done|]. eauto.
Qed.

Lemma elem_of_positions b q s :
  (b, q) ∈ positions s <->
  (b = true /\ q = s) \/ (b = false /\ exists c pre, s = String c pre ++ q).
Proof.
  unfold positions. rewrite elem_of_cons, elem_of_later. split.
  - intros [[= -> ->]|H]; auto.
  - intros [[-> ->]|H]; auto.
Qed.

Lemma positions_suffix p s : p ∈ positions s -> exists pre, s = pre ++ snd p.
Proof.
  destruct p as [b q]. rewrite elem_of_positions.
  intros [[_ ->]|[_ (c & pre & ->)]]; [by exists ""|eauto].
Qed.

Lemma suffix_position pre q s :
  s = pre ++ q -> exists b, (b, q) ∈ positions s /\ (pre = "" -> b = true).
Proof.
  intros ->. destruct pre as [|c pre].
  - exists true. split; [|done]. apply elem_of_positions. by left.
  - exists false. split; [|done]. apply elem_of_positions. right. eauto.
Qed.

Lemma MatchString_positions r s :
  MatchString r s = true <-> exists p q, p ∈ positions s /\ q ∈ ends r p.
Proof.
  unfold MatchString, matches_at. rewrite existsb_exists. split.
  - intros (p & Hp & H). exists p. destruct (ends r p) as [|q l] eqn:E; [done|].
    exists q. split; [by apply list_elem_of_In|]. apply list_elem_of_here.
  - intros (p & q & Hp & Hq). exists p. split; [by apply list_elem_of_In|].
    destruct (ends r p); [by apply elem_of_nil in Hq|done].
Qed.

(** The pattern matches the types that begin with ICMP, contain MTR or TCP,
    or end with HTTPGet, and no others. *)
Lemma MatchString_re ty : MatchString re ty = true <-> accepted ty.
Proof.
  rewrite MatchString_positions, re_branches. unfold accepted. split.
  - intros ([b s] & q & Hp & Hq). pose proof (positions_suffix _ _ Hp) as [pre E].
    simpl in E. cbn [ends] in Hq. rewrite !elem_of_app in Hq.
    destruct Hq as [H|[H|[H|[H|H]]]].
    + left. apply list_elem_of_In, in_flat_map in H as (x & Hx & H).
      simpl in Hx. destruct b; [|done]. destruct Hx as [<-|[]].
      apply list_elem_of_In, ends_then in H as (s' & -> & H).
      apply ends_Literal in H as [-> _].
      apply elem_of_positions in Hp as [[_ Hs]|[? _]]; [|done].
      exists (snd q). by rewrite <- Hs.
    + right. left. apply ends_then in H as (s' & -> & H).
      apply ends_Literal in H as [-> _]. exists pre, (snd q). by rewrite E.
    + right. left. apply ends_then in H as (s' & -> & H).
      apply list_elem_of_In, in_flat_map in H as (x & Hx & H).
      apply list_elem_of_In in Hx.
      apply (ends_suffix (Plus (Literal "P"))) in Hx as [pre' E'].
      destruct x as [bx sx]. simpl in E'.
      apply list_elem_of_In, ends_then in H as (s'' & -> & H).
      apply ends_Literal in H as [-> _].
      exists (pre ++ "ICM" ++ pre'), (snd q).
      by rewrite E, E', !append_assoc.
    + right. right. left. apply ends_then in H as (s' & -> & H).
      apply ends_Literal in H as [-> _]. exists pre, (snd q). by rewrite E.
    + right. right. right. apply ends_then in H as (s' & -> & H).
      apply list_elem_of_In, in_flat_map in H as (x & Hx & H).
      destruct x as [bx sx]. apply list_elem_of_In, ends_Literal in Hx as [-> _].
      simpl in H. destruct sx; [|done].
      exists pre. by rewrite E.
  - intros [[rest ->]|[(pre & rest & ->)|[(pre & rest & ->)|[pre ->]]]].
    + exists (true, "ICMP" ++ rest), (false, rest). split.
      * apply elem_of_positions. by left.
      * cbn [ends]. rewrite elem_of_app. left.
        apply list_elem_of_In, in_flat_map. exists (true, "ICMP" ++ rest).
        split; [by left|]. apply list_elem_of_In, ends_then.
        exists ("P" ++ rest). split; [done|]. by apply ends_Literal.
    + destruct (suffix_position pre ("MTR" ++ rest) _ eq_refl) as (b & Hb & _).
      exists (b, "MTR" ++ rest), (false, rest). split; [done|].
      cbn [ends]. rewrite !elem_of_app. right. left.
      apply ends_then. exists ("R" ++ rest). split; [done|]. by apply ends_Literal.
    + destruct (suffix_position pre ("TCP" ++ rest) _ eq_refl) as (b & Hb & _).
      exists (b, "TCP" ++ rest), (false, rest). split; [done|].
      cbn [ends]. rewrite !elem_of_app. do 3 right. left.
      apply ends_then. exists ("P" ++ rest). split; [done|]. by apply ends_Literal.
    + destruct (suffix_position pre "HTTPGet" _ eq_refl) as (b & Hb & _).
      exists (b, "HTTPGet"), (false, ""). split; [done|].
      cbn [ends]. rewrite !elem_of_app. do 4 right.
      apply ends_then. exists "t". split; [done|].
      apply list_elem_of_In, in_flat_map. exists (false, ""). split.
      * apply list_elem_of_In, ends_Literal. done.
      * by left.
Qed.

(** * The scheduler *)

Section scheduler_facts.

Context {W : Type}.
Implicit Types (s : target.system W) (t : target.PING W)
  (r d : target.PingResult W) (e : target.event W).

Lemma wrap_in_range z : int64.in_range (int64.wrap z).
Proof.
  unfold int64.in_range, int64.wrap, int64.min, int64.max.
  pose proof (Z.mod_pos_bound (z + 2 ^ 63) (2 ^ 64)). lia.
Qed.

Lemma wrap_id z : int64.in_range z -> int64.wrap z = z.
Proof.
  unfold int64.in_range, int64.wrap, int64.min, int64.max. intros H.
  rewrite Z.mod_small; lia.
Qed.

Lemma merge_in_range d r : counters_in_range (target.merge d r).
Proof. repeat split; apply wrap_in_range. Qed.

Lemma ping_Some t d r :
  target.result t = Some r ->
  target.ping t (Some d) = Ret (target.set_result t (Some (target.merge d r))).
Proof. intros H. unfold target.ping. by rewrite H. Qed.

(** A step leaves the stored result alone unless it is the merge of a
    sample. *)
Lemma step_result e s s' :
  target.step e s = Some s' ->
  (target.result (target.sched s') = target.result (target.sched s) /\
   target.samples [e] = []) \/
  exists d r,
    e = target.Probed (Some d) /\
    target.result (target.sched s) = Some r /\
    target.result (target.sched s') = Some (target.merge d r).
Proof.
  destruct e; simpl; intros H;
    repeat match type of H with
    | context [match ?x with _ => _ end] => destruct x eqn:?; try discriminate
    end;
    try (injection H as <-; simpl; left; split; reflexivity).
  unfold target.ping in *.
  destruct data as [d|]; [|discriminate].
  destruct (target.result (target.sched s)) as [r|] eqn:R; [|discriminate].
  injection H as <-. right. exists d, r. simplify_eq. auto.
Qed.

Lemma exec_app (es1 es2 : list (target.event W)) s :
  target.exec (es1 ++ es2) s =
  match target.exec es1 s with
  | Some s1 => target.exec es2 s1
  | None => None
  end.
Proof.
  revert s. induction es1 as [|e es1 IH]; intros s; simpl; [done|].
  destruct (target.step e s); [apply IH|done].
Qed.

Lemma samples_app (es1 es2 : list (target.event W)) :
  target.samples (es1 ++ es2) = (target.samples es1 ++ target.samples es2)%list.
Proof. unfold target.samples. apply omap_app. Qed.

Lemma samples_cons e (es : list (target.event W)) :
  target.samples (e :: es) = (target.samples [e] ++ target.samples es)%list.
Proof. apply (samples_app [e] es). Qed.

Lemma total_app (f : target.PingResult W -> Z) ds1 ds2 :
  total f (ds1 ++ ds2) = total f ds1 + total f ds2.
Proof. induction ds1 as [|d ds1 IH]; simpl; [done|]. rewrite IH. lia. Qed.

Lemma total_nonneg (f : target.PingResult W -> Z) ds :
  Forall (fun d => 0 <= f d) ds -> 0 <= total f ds.
Proof. induction 1; simpl; lia. Qed.

(** Without overflow the stored counters are the exact sums. *)
Lemma exec_counters es s s' r :
  target.exec es s = Some s' ->
  target.result (target.sched s) = Some r ->
  counters_in_range r ->
  Forall nonneg (target.samples es) ->
  no_overflow r (target.samples es) ->
  exists r',
    target.result (target.sched s') = Some r' /\
    counters_in_range r' /\
    target.SntSummary r' =
      target.SntSummary r + total target.SntSummary (target.samples es) /\
    target.SntFailSummary r' =
      target.SntFailSummary r + total target.SntFailSummary (target.samples es) /\
    target.SntTimeSummary r' =
      target.SntTimeSummary r + total target.SntTimeSummary (target.samples es).
Proof.
  revert s r. induction es as [|e es IH]; intros s r; cbn [target.exec].
  - intros [= <-] R In _ _. exists r. simpl. repeat split; try done; try apply In; lia.
  - destruct (target.step e s) as [s1|] eqn:St; [|done].
    intros Ex R In Hn Ho.
    destruct (step_result e s s1 St) as [[E S0]|(d & r0 & -> & R0 & R1)].
    + rewrite samples_cons, S0 in Hn, Ho |- *. simpl in *.
      apply (IH s1 r); try done. by rewrite E.
    + rewrite R in R0. injection R0 as <-.
      change (target.samples (target.Probed (Some d) :: es))
        with (d :: target.samples es) in *.
      apply Forall_cons in Hn as [(n1 & n2 & n3) Hn].
      destruct Ho as (o1 & o2 & o3). simpl in o1, o2, o3.
      destruct In as (i1 & i2 & i3).
      pose proof (total_nonneg target.SntSummary (target.samples es)) as p1.
      pose proof (total_nonneg target.SntFailSummary (target.samples es)) as p2.
      pose proof (total_nonneg target.SntTimeSummary (target.samples es)) as p3.
      assert (0 <= total target.SntSummary (target.samples es)) as q1
        by (apply p1; eapply Forall_impl; [exact Hn|]; intros ? (?&?&?); done).
      assert (0 <= total target.SntFailSummary (target.samples es)) as q2
        by (apply p2; eapply Forall_impl; [exact Hn|]; intros ? (?&?&?); done).
      assert (0 <= total target.SntTimeSummary (target.samples es)) as q3
        by (apply p3; eapply Forall_impl; [exact Hn|]; intros ? (?&?&?); done).
      unfold int64.in_range in i1, i2, i3.
      assert (target.SntSummary (target.merge d r) =
              target.SntSummary d + target.SntSummary r) as m1
        by (simpl; unfold int64.add; apply wrap_id; unfold int64.in_range; lia).
      assert (target.SntFailSummary (target.merge d r) =
              target.SntFailSummary d + target.SntFailSummary r) as m2
        by (simpl; unfold int64.add; apply wrap_id; unfold int64.in_range; lia).
      assert (target.SntTimeSummary (target.merge d r) =
              target.SntTimeSummary d + target.SntTimeSummary r) as m3
        by (simpl; unfold int64.add; apply wrap_id; unfold int64.in_range; lia).
      destruct (IH s1 (target.merge d r) Ex R1 (merge_in_range d r) Hn)
        as (r' & R' & In' & e1 & e2 & e3).
      { unfold no_overflow. rewrite m1, m2, m3. lia. }
      exists r'. split; [done|]. split; [done|].
      rewrite e1, e2, e3, m1, m2, m3. simpl. lia.
Qed.

Lemma exec_in_range es s s' r :
  target.exec es s = Some s' ->
  target.result (target.sched s) = Some r ->
  counters_in_range r ->
  exists r', target.result (target.sched s') = Some r' /\ counters_in_range r'.
Proof.
  revert s r. induction es as [|e es IH]; intros s r; simpl.
  - intros [= <-] R In. eauto.
  - destruct (target.step e s) as [s1|] eqn:St; [|done].
    intros Ex R In.
    destruct (step_result e s s1 St) as [[E S0]|(d & r0 & -> & R0 & R1)].
    + apply (IH s1 r); try done. by rewrite E.
    + apply (IH s1 _ Ex R1). apply merge_in_range.
Qed.

Lemma ping_wg t data t' :
  target.ping t data = Ret t' ->
  target.wg t' = target.wg t /\ target.stop t' = target.stop t.
Proof.
  unfold target.ping. destruct data, (target.result t); try discriminate.
  by intros [= <-].
Qed.

(** The invariant of the transition system. *)
Lemma step_inv e s s' :
  target.step e s = Some s' -> scheduler_inv s -> scheduler_inv s'.
Proof.
  unfold scheduler_inv. intros H (I1 & I2 & I3 & I4).
  destruct e; simpl in H;
    repeat match type of H with
    | context [match ?x with _ => _ end] => destruct x eqn:?; try discriminate
    end;
    injection H as <-; simpl in *;
    try match goal with
    | P : target.ping _ _ = Ret _ |- _ => apply ping_wg in P as [P _]; rewrite P
    end;
    try match goal with
    | L : (_ <? _)%nat = true |- _ => apply Nat.ltb_lt in L
    end;
    repeat split; try lia; try done;
    try (intros Hx; first [specialize (I1 Hx) | specialize (I2 Hx)]; congruence).
  all: intros _; by apply I1.
Qed.

Lemma exec_inv es s s' :
  target.exec es s = Some s' -> scheduler_inv s -> scheduler_inv s'.
Proof.
  revert s. induction es as [|e es IH]; intros s; simpl.
  - by intros [= <-].
  - destruct (target.step e s) as [s1|] eqn:St; [|done].
    intros Ex I. apply (IH s1 Ex). by apply (step_inv e s).
Qed.

Lemma NewPing_inv startupDelay name host ip srcAddr interval timeout count
    labels ipv6 (zero : W) :
  scheduler_inv
    (target.NewPing startupDelay name host ip srcAddr interval timeout count
       labels ipv6 zero).
Proof. unfold scheduler_inv. simpl. repeat split; try done. unfold target.MaxConcurrentJobs. lia. Qed.

(** Once the loop has returned, nothing is launched: every merge uses up one
    of the goroutines that were inside [t.ping()]. *)
Lemma exec_after_exit es s s' :
  target.exec es s = Some s' ->
  target.run s = target.Exited ->
  target.run s' = target.Exited /\
  (target.stopper s = target.Returned -> target.stopper s' = target.Returned) /\
  (target.probing s' + merges es = target.probing s)%nat /\
  (merges es = 0%nat ->
   target.result (target.sched s') = target.result (target.sched s)).
Proof.
  revert s. induction es as [|e es IH]; intros s; cbn [target.exec].
  - intros [= <-] R. unfold merges. simpl. repeat split; try done; try lia.
  - destruct (target.step e s) as [s1|] eqn:St; [|done].
    intros Ex R. 
    assert (target.run s1 = target.Exited /\
            (target.stopper s = target.Returned -> target.stopper s1 = target.Returned) /\
            (target.probing s1 + merges [e] = target.probing s)%nat) as (R1 & T1 & P1).
    { destruct e; simpl in St;
        repeat match type of St with
        | context [match ?x with _ => _ end] => destruct x eqn:?; try discriminate
        end; try congruence;
        injection St as <-; unfold merges; simpl; repeat split; try done; try lia; try congruence.
      all: destruct data; simpl; try lia.
      all: unfold target.ping in *; simpl in *; try discriminate.
      all: destruct (target.result (target.sched s)); discriminate. }
    destruct (IH s1 Ex R1) as (R' & T' & P' & M').
    unfold merges in *. rewrite samples_cons, length_app.
    repeat split; try done.
    + auto.
    + lia.
    + intros Z0. destruct (step_result e s s1 St) as [[E S0]|(d & r0 & -> & R0 & Rm)].
      * rewrite <- E. apply M'. lia.
      * simpl in Z0. lia.
Qed.

End scheduler_facts.

(** * The claims *)

(** The result of the duplicate check on declared types. *)
Lemma HasDuplicateTargets_declared m :
  Forall declared m ->
  (duplicate_pair m ->
   exists t, t ∈ m /\ HasDuplicateTargets m = Ret (true, Some (duplicate_error t))) /\
  (~ duplicate_pair m -> HasDuplicateTargets m = Ret (false, None)).
Proof.
  intros Hd. unfold HasDuplicateTargets.
  pose proof (HasDuplicateTargets_from_clean tmp_init m keys_ok_init Hd) as C.
  split.
  - intros D.
    destruct (HasDuplicateTargets_from_total tmp_init m keys_ok_init Hd)
      as [E|(t & Ht & E)].
    + apply C in E as [_ E]. done.
    + exists t. split; [done|]. by rewrite E.
  - intros D. apply C. split; [|done].
    intros t Ht. apply clash_init. by apply (proj1 (Forall_forall _ _) Hd).
Qed.

(** A type that is no key of the map and not the compound type makes the
    first assignment panic. *)
Lemma HasDuplicateTargets_undeclared t m :
  Type_ t ∉ declared_types ->
  HasDuplicateTargets (t :: m) = Panic "assignment to entry in nil map".
Proof.
  unfold declared_types. rewrite !elem_of_cons, elem_of_nil. intros H.
  unfold HasDuplicateTargets. simpl.
  destruct (String.eqb_spec (Type_ t) "ICMP+MTR") as [E|_]; [tauto|].
  assert (tmp_init !! Type_ t = None) as L.
  { unfold tmp_init. rewrite !lookup_insert_ne, lookup_empty; [done|..];
      intros E; rewrite <- E in H; tauto. }
  unfold seen, mark. by rewrite L.
Qed.





(** The live configuration after a reload: replaced when the reload returns
    nil, by a configuration that passed the duplicate check and the sanity
    checks, and untouched in every other case. *)
Lemma ReloadConfig_live env confFile w :
  match fst (ReloadConfig env confFile w) with
  | Ret None =>
      exists c b,
        live (snd (ReloadConfig env confFile w)) = {| Cfg := Some c |} /\
        HasDuplicateTargets (Config_Targets c) = Ret (b, None) /\
        precheck c = None
  | _ => live (snd (ReloadConfig env confFile w)) = live w
  end.
Proof.
  destruct (ReloadConfig env confFile w) as [r w2] eqn:E. simpl.
  unfold ReloadConfig in E.
  destruct (os_Hostname env) as [hostname|e]; [|by injection E as <- <-].
  destruct (os_Open env confFile) as [f|e]; [|by injection E as <- <-].
  destruct (yaml_Decode env f) as [c0|e]; [|by injection E as <- <-].
  destruct (defaults_Set env c0) as [c|e]; [|by injection E as <- <-].
  rewrite MustCompile_pattern in E. unfold bind_M, lift in E.
  pose proof (validate_all_live env hostname (Config_Targets c) [] w) as L.
  destruct (validate_all env hostname re (Config_Targets c) [] w)
    as [[targets|e] w1]; simpl in L; [|by injection E as <- <-].
  cbn [set_Targets Config_Targets] in E.
  destruct (HasDuplicateTargets targets) as [[b [err|]]|e] eqn:D;
    cbn [snd] in E; unfold unit_M in E; [by injection E as <- <-| |by injection E as <- <-].
  destruct (precheck (set_Targets c targets)) eqn:P;
    [by injection E as <- <-|].
  unfold store_Cfg in E. injection E as <- <-.
  exists (set_Targets c targets), b. by repeat split.
Qed.

(** C2.  Whenever the reload returns an error the live configuration is the
    one stored before; it differs afterwards only if the reload returned
    nil, and then it is the newly resolved configuration. *)
Theorem C2_failed_reload_keeps_configuration env confFile w :
  (forall err,
     fst (ReloadConfig env confFile w) = Ret (Some err) ->
     live (snd (ReloadConfig env confFile w)) = live w) /\
  (live (snd (ReloadConfig env confFile w)) <> live w ->
   fst (ReloadConfig env confFile w) = Ret None) /\
  (fst (ReloadConfig env confFile w) = Ret None ->
   exists c,
     Cfg (live (snd (ReloadConfig env confFile w))) = Some c /\
     precheck c = None).
Proof.
  pose proof (ReloadConfig_live env confFile w) as H.
  destruct (fst (ReloadConfig env confFile w)) as [[err|]|e]; repeat split;
    try done.
  destruct H as (c & b & L & _ & P). intros _. exists c. by rewrite L.
Qed.

(** A duplicate target in the new file leaves the running configuration in
    place. *)
Lemma C2_failed_reload_keeps_configuration_witness :
  live (snd (ReloadConfig
               (env_of "runner"
                  (config_of 30 [target_of "db1" "192.0.2.7" "ICMP" None;
                                 target_of "db1" "192.0.2.8" "ICMP" None])
                  literal_hosts no_lookup)
               "network_exporter.yml" running)) = live running.
Proof.
  apply (proj1 (C2_failed_reload_keeps_configuration _ _ _)
           "parsing config file: found duplicated record: db1").
  vm_compute. reflexivity.
Defined.

(** C3.  The type "XMTR" is none of the five declared types, yet the
    pattern matches it (it contains MTR) and the loop keeps the target
    without logging an error.  A type the pattern does not match, such as
    "FOO", is dropped with one error record, and each of the five declared
    types is matched.  In general the pattern matches a type exactly when it
    begins with ICMP, contains MTR or TCP, or ends with HTTPGet. *)
Theorem C3_type_validation_keeps_XMTR :
  ("XMTR" ∉ declared_types) /\
  MatchString re "XMTR" = true /\
  validate_one (env_of "runner" (config_of 30 []) literal_hosts no_lookup)
    "runner" re (target_of "a" "10.0.0.1" "XMTR" None) [] quiet =
    (Ret [target_of "a" "10.0.0.1" "XMTR" None], quiet) /\
  validate_one (env_of "runner" (config_of 30 []) literal_hosts no_lookup)
    "runner" re (target_of "b" "10.0.0.2" "FOO" None) [] quiet =
    (Ret [],
     {| live := live quiet;
        logged :=
          [{| level := "ERROR"; msg := "Unknown check type";
              attrs := [("type", "Config"); ("func", "ReloadConfig");
                        ("target", "b"); ("check_type", "FOO");
                        ("allowed", "(ICMP|MTR|ICMP+MTR|TCP|HTTPGet)")] |}] |}) /\
  Forall (fun ty => MatchString re ty = true) declared_types /\
  (forall ty, MatchString re ty = true <-> accepted ty).
Proof.
  split; [|split; [|split; [|split; [|split]]]].
  - unfold declared_types. rewrite !elem_of_cons, elem_of_nil.
    intros [H|[H|[H|[H|[H|[]]]]]]; discriminate.
  - vm_compute. reflexivity.
  - vm_compute. reflexivity.
  - vm_compute. reflexivity.
  - repeat constructor.
  - apply MatchString_re.
Qed.

(** C9.  A target whose type is none of the five declared ones makes the
    duplicate check panic at its first assignment, when it is the first of
    the list; a type that contains MTR passes the pattern all the same, and
    a reload that resolves such a list ends in the panic instead of an
    error, with the live configuration as it was. *)
Theorem C9_undeclared_type_panics (ty : string) :
  ty ∉ declared_types ->
  (contains "MTR" ty -> MatchString re ty = true) /\
  (forall t m,
     Type_ t = ty ->
     HasDuplicateTargets (t :: m) = Panic "assignment to entry in nil map") /\
  (forall env confFile w hostname c t m w',
     Type_ t = ty ->
     resolves env confFile w hostname c (t :: m) w' ->
     ReloadConfig env confFile w =
       (Panic "assignment to entry in nil map", w') /\
     live w' = live w).
Proof.
  intros N. split; [|split].
  - intros H. apply MatchString_re. right. by left.
  - intros t m <-. by apply HasDuplicateTargets_undeclared.
  - intros env confFile w hostname c t m w' <- R.
    split; [|by apply (resolves_live _ _ _ _ _ _ _ R)].
    by rewrite (ReloadConfig_resolved _ _ _ _ _ _ _ R),
      HasDuplicateTargets_undeclared.
Qed.

(** The type "XMTR": a reload of a file with one such target panics. *)
Lemma C9_undeclared_type_panics_witness :
  MatchString re "XMTR" = true /\
  ReloadConfig
    (env_of "runner" (config_of 30 [target_of "a" "10.0.0.1" "XMTR" None])
       literal_hosts no_lookup)
    "network_exporter.yml" running =
  (Panic "assignment to entry in nil map", running).
Proof.
  assert ("XMTR" ∉ declared_types) as N.
  { unfold declared_types. rewrite !elem_of_cons, elem_of_nil.
    intros [H|[H|[H|[H|[H|[]]]]]]; discriminate. }
  split.
  - apply (proj1 (C9_undeclared_type_panics "XMTR" N)).
    exists "X", "". reflexivity.
  - apply (proj2 (proj2 (C9_undeclared_type_panics "XMTR" N))
             (env_of "runner"
                (config_of 30 [target_of "a" "10.0.0.1" "XMTR" None])
                literal_hosts no_lookup)
             "network_exporter.yml" running "runner"
             (config_of 30 [target_of "a" "10.0.0.1" "XMTR" None])
             (target_of "a" "10.0.0.1" "XMTR" None) [] running eq_refl).
    exists "", (config_of 30 [target_of "a" "10.0.0.1" "XMTR" None]).
    repeat split; reflexivity.
Defined.

(** The two branches of one round, for a target that passes the pattern. *)
Lemma validate_one_literal env hostname t targets w :
  MatchString re (Type_ t) = true ->
  common_SrvRecordCheck env (Host t) = false ->
  validate_one env hostname re t targets w =
  (Ret (targets ++ replicate (times hostname t) t)%list, w).
Proof.
  intros Hm Hs. unfold validate_one. rewrite Hs, Hm. simpl.
  unfold unit_M. by rewrite probe_filter_eq.
Qed.

Lemma validate_one_srv env hostname t targets w hosts :
  MatchString re (Type_ t) = true ->
  common_SrvRecordCheck env (Host t) = true ->
  srv_protocol_ok t ->
  common_SrvRecordHosts env (Host t) = Val hosts ->
  validate_one env hostname re t targets w =
  (Ret (targets ++
        flat_map (fun h => replicate (times hostname t) (sub_target t h)) hosts)%list,
   w).
Proof.
  intros Hm Hs Hp Hl. unfold validate_one. rewrite Hs, Hm. simpl.
  unfold bind_M, lift, unit_M.
  destruct (String.eqb_spec (Type_ t) "TCP") as [E|_].
  - destruct (Hp E) as (proto & P1 & P2). rewrite P1, E, P2. simpl.
    by rewrite Hl, expand_eq.
  - by rewrite Hl, expand_eq.
Qed.

Lemma times_positive hostname t ps :
  Probe t = Some ps -> (0 < times hostname t)%nat <-> hostname ∈ ps.
Proof.
  intros E. unfold times. rewrite E. clear E.
  induction ps as [|p ps IH]; simpl.
  - split; [lia|]. intros H. by apply elem_of_nil in H.
  - rewrite elem_of_cons. destruct (String.eqb_spec p hostname) as [->|N]; simpl.
    + split; [auto|lia].
    + rewrite IH. split; [auto|]. intros [H|H]; [congruence|done].
Qed.












Lemma precheck_set_Targets c targets :
  precheck (set_Targets c targets) = precheck c.
Proof. reflexivity. Qed.

(** The sanity checks, condition by condition. *)
Lemma precheck_cases c :
  (interval_not_positive c /\
   precheck c = Some "intervals (icmp,mtr,tcp,http_get) must be >0") \/
  (~ interval_not_positive c /\ max_hops_out_of_bounds c /\
   precheck c = Some "mtr.max-hops must be between 0 and 65500") \/
  (~ interval_not_positive c /\ ~ max_hops_out_of_bounds c /\
   count_out_of_bounds c /\
   precheck c = Some "mtr.count must be between 0 and 65500") \/
  (~ interval_not_positive c /\ ~ max_hops_out_of_bounds c /\
   ~ count_out_of_bounds c /\ precheck c = None).
Proof.
  unfold precheck, interval_not_positive, max_hops_out_of_bounds,
    count_out_of_bounds.
  destruct (Z.leb_spec (ICMP_Interval (Config_ICMP c)) 0);
    destruct (Z.leb_spec (MTR_Interval (Config_MTR c)) 0);
    destruct (Z.leb_spec (TCP_Interval (Config_TCP c)) 0);
    destruct (Z.leb_spec (HTTPGet_Interval (Config_HTTPGet c)) 0);
    cbn [orb]; try (left; split; [lia|reflexivity]).
  right.
  destruct (Z.ltb_spec (MTR_MaxHops (Config_MTR c)) 0);
    [left; split; [lia|]; split; [lia|reflexivity]|].
  rewrite Z.gtb_ltb.
  destruct (Z.ltb_spec 65500 (MTR_MaxHops (Config_MTR c))); cbn [orb];
    [left; split; [lia|]; split; [lia|reflexivity]|].
  right.
  destruct (Z.ltb_spec (MTR_Count (Config_MTR c)) 0);
    [left; split; [lia|]; split; [lia|]; split; [lia|reflexivity]|].
  rewrite Z.gtb_ltb.
  destruct (Z.ltb_spec 65500 (MTR_Count (Config_MTR c))); cbn [orb];
    [left; split; [lia|]; split; [lia|]; split; [lia|reflexivity]|].
  right. split; [lia|]. split; [lia|]. split; [lia|reflexivity].
Qed.

(** C6.  After parsing and the duplicate check have succeeded, the reload
    returns an error exactly when an interval is not positive or the MTR hop
    limit or the MTR count is outside 0..65500.  With positive intervals a
    hop limit of 70000 gives the max-hops error; with a hop limit of 30 and
    a count within bounds the reload returns nil and installs the
    configuration. *)
Theorem C6_sanity_checks env confFile w hostname c targets w' b :
  resolves env confFile w hostname c targets w' ->
  HasDuplicateTargets targets = Ret (b, None) ->
  ((exists err, fst (ReloadConfig env confFile w) = Ret (Some err)) <->
   interval_not_positive c \/ max_hops_out_of_bounds c \/
   count_out_of_bounds c) /\
  (~ interval_not_positive c -> MTR_MaxHops (Config_MTR c) = 70000 ->
   ReloadConfig env confFile w =
   (Ret (Some "mtr.max-hops must be between 0 and 65500"), w')) /\
  (~ interval_not_positive c -> MTR_MaxHops (Config_MTR c) = 30 ->
   ~ count_out_of_bounds c ->
   ReloadConfig env confFile w =
   (Ret None, installed (set_Targets c targets) w')).
Proof.
  intros R D. rewrite (ReloadConfig_resolved _ _ _ _ _ _ _ R), D.
  rewrite precheck_set_Targets.
  destruct (precheck_cases c) as [(I & ->)|[(I & H & ->)|[(I & H & C & ->)|(I & H & C & ->)]]];
    simpl; (split; [split|split]); try tauto; eauto.
  - intros _ E. unfold max_hops_out_of_bounds in H. lia.
  - intros _ E. unfold max_hops_out_of_bounds in H. lia.
  - intros [err E]. discriminate.
  - intros _ E. unfold max_hops_out_of_bounds in H. lia.
Qed.

(** The instance of the specification: a hop limit of 70000. *)
Lemma C6_sanity_checks_witness :
  ReloadConfig
    (env_of "runner" (config_of 70000 [target_of "a" "10.0.0.1" "MTR" None])
       literal_hosts no_lookup)
    "network_exporter.yml" running =
  (Ret (Some "mtr.max-hops must be between 0 and 65500"), running).
Proof.
  apply (proj1 (proj2 (C6_sanity_checks
    (env_of "runner" (config_of 70000 [target_of "a" "10.0.0.1" "MTR" None])
       literal_hosts no_lookup)
    "network_exporter.yml" running "runner"
    (config_of 70000 [target_of "a" "10.0.0.1" "MTR" None])
    [target_of "a" "10.0.0.1" "MTR" None] running false
    (ex_intro _ "" (ex_intro _ _ (conj eq_refl (conj eq_refl (conj eq_refl
       (conj eq_refl eq_refl))))))
    eq_refl))).
  - unfold interval_not_positive. simpl. lia.
  - reflexivity.
Defined.





(** * The claims on the scheduler *)

Lemma Compute_result {W : Type} (t : target.PING W) :
  target.Compute t = target.result t.
Proof. unfold target.Compute. by destruct (target.result t). Qed.

(** C7, as the code has it.  The merge stores the new sample with each of
    the three counters set to the 64-bit sum of the sample's and the stored
    value.  Over a run of a scheduler from [NewPing] in which every sample
    is non-negative and no counter total exceeds the largest 64-bit value,
    the counters [Compute] shows are the exact totals of the samples merged
    so far, and never decrease from one state to a later one. *)
Theorem C7_cumulative_counters {W : Type}
    (startupDelay : Z) (name host ip srcAddr : string)
    (interval timeout count : Z) (labels : gmap string string) (ipv6 : bool)
    (zero : W) (es1 es2 : list (target.event W)) (s1 s2 : target.system W) :
  (forall (t : target.PING W) (d r : target.PingResult W),
     target.result t = Some r ->
     target.ping t (Some d) = Ret (target.set_result t (Some (target.merge d r))) /\
     target.Windowed (target.merge d r) = target.Windowed d /\
     target.SntSummary (target.merge d r) =
       int64.wrap (target.SntSummary d + target.SntSummary r) /\
     target.SntFailSummary (target.merge d r) =
       int64.wrap (target.SntFailSummary d + target.SntFailSummary r) /\
     target.SntTimeSummary (target.merge d r) =
       int64.wrap (target.SntTimeSummary d + target.SntTimeSummary r)) /\
  (target.exec es1
     (target.NewPing startupDelay name host ip srcAddr interval timeout count
        labels ipv6 zero) = Some s1 ->
   target.exec es2 s1 = Some s2 ->
   Forall nonneg (target.samples (es1 ++ es2)) ->
   total target.SntSummary (target.samples (es1 ++ es2)) <= int64.max ->
   total target.SntFailSummary (target.samples (es1 ++ es2)) <= int64.max ->
   total target.SntTimeSummary (target.samples (es1 ++ es2)) <= int64.max ->
   exists r1 r2,
     target.Compute (target.sched s1) = Some r1 /\
     target.Compute (target.sched s2) = Some r2 /\
     counters_le r1 r2 /\
     target.SntSummary r2 = total target.SntSummary (target.samples (es1 ++ es2)) /\
     target.SntFailSummary r2 =
       total target.SntFailSummary (target.samples (es1 ++ es2)) /\
     target.SntTimeSummary r2 =
       total target.SntTimeSummary (target.samples (es1 ++ es2))).
Proof.
  split.
  - intros t d r R. split; [by apply ping_Some|]. by repeat split.
  - intros E1 E2 Hn O1 O2 O3. rewrite !Compute_result.
    rewrite samples_app in *. rewrite !total_app in *.
    apply Forall_app in Hn as [N1 N2].
    assert (forall (f : target.PingResult W -> Z) es,
              Forall nonneg (target.samples es) ->
              (forall d, nonneg d -> 0 <= f d) ->
              0 <= total f (target.samples es)) as P.
    { intros f es N Hf. apply total_nonneg. eapply Forall_impl; [exact N|].
      exact Hf. }
    pose proof (P target.SntSummary es1 N1 (fun d H => proj1 H)) as a1.
    pose proof (P target.SntFailSummary es1 N1 (fun d H => proj1 (proj2 H))) as a2.
    pose proof (P target.SntTimeSummary es1 N1 (fun d H => proj2 (proj2 H))) as a3.
    pose proof (P target.SntSummary es2 N2 (fun d H => proj1 H)) as b1.
    pose proof (P target.SntFailSummary es2 N2 (fun d H => proj1 (proj2 H))) as b2.
    pose proof (P target.SntTimeSummary es2 N2 (fun d H => proj2 (proj2 H))) as b3.
    assert (forall z : W, counters_in_range
              {| target.Windowed := z; target.SntSummary := 0;
                 target.SntFailSummary := 0; target.SntTimeSummary := 0 |}) as I0.
    { intros z. unfold counters_in_range, int64.in_range, int64.min, int64.max.
      simpl. lia. }
    destruct (exec_counters es1 _ s1 _ E1 eq_refl (I0 zero) N1)
      as (r1 & R1 & I1 & x1 & x2 & x3).
    { unfold no_overflow. simpl. lia. }
    simpl in x1, x2, x3.
    destruct (exec_counters es2 s1 s2 r1 E2 R1 I1 N2) as (r2 & R2 & I2 & y1 & y2 & y3).
    { unfold no_overflow. lia. }
    exists r1, r2. unfold counters_le. repeat split; try done; lia.
Qed.

(** Two cycles of ten samples each. *)
Lemma C7_cumulative_counters_witness :
  exists r1 r2,
    target.Compute (target.sched (default demo (target.exec
      [target.Ticked; target.Launched; target.Probed (Some (sample 10))] demo)))
    = Some r1 /\
    target.Compute (target.sched (default demo (target.exec
      [target.Ticked; target.Launched; target.Probed (Some (sample 10));
       target.Released; target.Ticked; target.Launched;
       target.Probed (Some (sample 10))] demo)))
    = Some r2 /\
    counters_le r1 r2 /\ target.SntSummary r2 = 20.
Proof.
  destruct (proj2 (C7_cumulative_counters 0 "db1" "db1.example.org" "192.0.2.7"
              "" 5000000000 4000000000 10 ∅ false tt
              [target.Ticked; target.Launched; target.Probed (Some (sample 10))]
              [target.Released; target.Ticked; target.Launched;
               target.Probed (Some (sample 10))]
              (default demo (target.exec
                 [target.Ticked; target.Launched;
                  target.Probed (Some (sample 10))] demo))
              (default demo (target.exec
                 [target.Ticked; target.Launched;
                  target.Probed (Some (sample 10)); target.Released;
                  target.Ticked; target.Launched;
                  target.Probed (Some (sample 10))] demo))))
    as (r1 & r2 & H1 & H2 & H3 & H4 & _).
  - reflexivity.
  - reflexivity.
  - repeat constructor; simpl; lia.
  - vm_compute. discriminate.
  - vm_compute. discriminate.
  - vm_compute. discriminate.
  - exists r1, r2. repeat split; try assumption; apply H3.
Defined.

(** C7 as stated fails: both samples are non-negative, and the sent counter
    falls from the largest 64-bit value to the smallest. *)
Lemma C7_counterexample_overflow :
  nonneg (sample int64.max) /\ nonneg (sample 1) /\
  sent_after
    [target.Ticked; target.Launched; target.Probed (Some (sample int64.max))]
  = Some int64.max /\
  sent_after
    [target.Ticked; target.Launched; target.Probed (Some (sample int64.max));
     target.Released; target.Ticked; target.Launched;
     target.Probed (Some (sample 1))]
  = Some int64.min /\
  int64.min < int64.max.
Proof.
  unfold nonneg. repeat split; try (vm_compute; reflexivity);
    try (vm_compute; discriminate).
Qed.

(** C8, as the code has it.  Once [Stop] has returned, the loop has returned
    too and launches nothing; the stored result changes only through the
    goroutines that were inside [t.ping()] at that moment, at most
    [MaxConcurrentJobs] of them, one merge each.  If none was, [Compute]
    shows the same result in every later state. *)
Theorem C8_after_stop {W : Type}
    (startupDelay : Z) (name host ip srcAddr : string)
    (interval timeout count : Z) (labels : gmap string string) (ipv6 : bool)
    (zero : W) (es es' : list (target.event W)) (s s' : target.system W) :
  target.exec es
    (target.NewPing startupDelay name host ip srcAddr interval timeout count
       labels ipv6 zero) = Some s ->
  target.stopper s = target.Returned ->
  target.exec es' s = Some s' ->
  target.run s' = target.Exited /\
  (target.probing s' + merges es' = target.probing s)%nat /\
  (target.probing s <= target.MaxConcurrentJobs)%nat /\
  (target.probing s = 0%nat ->
   target.Compute (target.sched s') = target.Compute (target.sched s)).
Proof.
  intros E St E'.
  pose proof (exec_inv es _ s E (NewPing_inv _ _ _ _ _ _ _ _ _ _ _))
    as (_ & I2 & I3 & I4).
  destruct (exec_after_exit es' s s' E' (I2 St)) as (R & _ & P & M).
  repeat split; try done; try lia.
  intros Z0. rewrite !Compute_result. apply M. lia.
Qed.

(** No probe is in flight when [Stop] returns: the result stays. *)
Lemma C8_after_stop_witness :
  target.Compute (target.sched (default demo (target.exec
    [target.Ticked; target.Launched; target.Probed (Some (sample 10));
     target.StopCalled; target.LoopStopped; target.StopReturned;
     target.Released] demo))) =
  target.Compute (target.sched (default demo (target.exec
    [target.Ticked; target.Launched; target.Probed (Some (sample 10));
     target.StopCalled; target.LoopStopped; target.StopReturned] demo))).
Proof.
  refine (proj2 (proj2 (proj2 (C8_after_stop 0 "db1" "db1.example.org"
    "192.0.2.7" "" 5000000000 4000000000 10 ∅ false tt
    [target.Ticked; target.Launched; target.Probed (Some (sample 10));
     target.StopCalled; target.LoopStopped; target.StopReturned]
    [target.Released] _ _ _ _ _))) _); reflexivity.
Defined.

(** C8 as stated fails: a probe launched before [Stop] finishes after
    [Stop] has returned, and [Compute] then shows another result. *)
Lemma C8_counterexample_probe_in_flight :
  match target.exec
          [target.Ticked; target.Launched; target.StopCalled;
           target.LoopStopped; target.StopReturned] demo with
  | Some s =>
      target.stopper s = target.Returned /\
      match target.exec [target.Probed (Some (sample 10))] s with
      | Some s' =>
          target.Compute (target.sched s) = Some (sample 0) /\
          target.Compute (target.sched s') = Some (sample 10)
      | None => False
      end
  | None => False
  end.
Proof. vm_compute. repeat split. Qed.

(** * Further properties of the duplicate check *)

Lemma undeclared_not_key ty :
  ty ∉ declared_types -> ty <> "ICMP+MTR" /\ ty ∉ keys.
Proof.
  unfold declared_types, keys. rewrite !elem_of_cons, elem_of_nil.
  intros H. split; [tauto|].
  rewrite !elem_of_union, !elem_of_singleton. tauto.
Qed.

Lemma HasDuplicateTargets_from_undeclared tmp t m :
  keys_ok tmp -> Type_ t ∉ declared_types ->
  HasDuplicateTargets_from tmp (t :: m) = Panic nil_map_panic.
Proof.
  intros Hk Hu. apply undeclared_not_key in Hu as [N K].
  pose proof (keys_ok_missing tmp _ Hk K) as L. simpl.
  apply String.eqb_neq in N. rewrite N. unfold seen, mark. by rewrite L.
Qed.

Lemma clash_true tmp t :
  clash tmp t = true <->
  exists ns, in_namespace ns (Type_ t) = true /\ seen tmp ns (Name t) = true.
Proof.
  unfold clash, in_namespace. rewrite existsb_exists. split.
  - intros (ns & Hin & S). exists ns. split; [|done].
    apply existsb_exists. exists ns. split; [done|apply String.eqb_refl].
  - intros (ns & Hin & S). exists ns. split; [|done].
    apply existsb_exists in Hin as (x & Hx & E).
    apply String.eqb_eq in E. by subst.
Qed.

Lemma conflict_in_namespace t u :
  conflict t u <->
  Name t = Name u /\
  exists ns, in_namespace ns (Type_ t) = true /\ in_namespace ns (Type_ u) = true.
Proof. unfold conflict. by rewrite <- shares_same_namespace, shares_true. Qed.

(** After a round on [t], a target clashes if it did before or conflicts
    with [t]. *)
Lemma clash_round tmp tmp' t u :
  (forall ns n,
     seen tmp' ns n =
     seen tmp ns n || (in_namespace ns (Type_ t) && String.eqb n (Name t))) ->
  clash tmp' u = true <-> clash tmp u = true \/ conflict t u.
Proof.
  intros S. rewrite !clash_true, conflict_in_namespace. split.
  - intros (ns & Hu & H). rewrite S in H. apply orb_true_iff in H as [H|H].
    + left. eauto.
    + right. apply andb_true_iff in H as [H1 H2]. apply String.eqb_eq in H2.
      split; [done|]. eauto.
  - intros [(ns & Hu & H)|(E & ns & H1 & H2)]; exists ns; (split; [done|]);
      rewrite S.
    + by rewrite H.
    + rewrite H1, <- E, String.eqb_refl. by rewrite orb_true_r.
Qed.

Lemma clash_init_false t : clash tmp_init t = false.
Proof.
  apply not_true_is_false. rewrite clash_true. intros (ns & _ & H).
  unfold seen, tmp_init in H. rewrite !lookup_insert in H.
  repeat case_decide; try done.
Qed.

(** One round on a declared type, for whatever follows. *)
Lemma HasDuplicateTargets_step tmp t :
  keys_ok tmp -> declared t ->
  exists tmp',
    keys_ok tmp' /\
    (forall m,
       HasDuplicateTargets_from tmp (t :: m) =
       if clash tmp t then duplicated (Name t)
       else HasDuplicateTargets_from tmp' m) /\
    (forall u, clash tmp' u = true <-> clash tmp u = true \/ conflict t u).
Proof.
  intros Hk Hd. destruct (declared_cases t Hd) as [Hc|[Hc Hin]].
  - assert (HM : "MTR" ∈ keys) by (unfold keys; set_solver).
    assert (HI : "ICMP" ∈ keys) by (unfold keys; set_solver).
    destruct (mark_ok tmp "MTR" (Name t) Hk HM) as (tmp1 & E1 & K1 & S1).
    destruct (mark_ok tmp1 "ICMP" (Name t) K1 HI) as (tmp2 & E2 & K2 & S2).
    exists tmp2. split; [done|]. split.
    + intros m. simpl. unfold clash, namespaces. rewrite Hc. simpl.
      destruct (seen tmp "MTR" (Name t)); [done|]. simpl.
      rewrite E1, S1. simpl. rewrite orb_false_r.
      destruct (seen tmp "ICMP" (Name t)); [done|]. by rewrite E2.
    + intros u. apply clash_round. intros ns n. rewrite S2, S1.
      unfold in_namespace, namespaces. rewrite Hc. simpl.
      destruct (seen tmp ns n), (String.eqb ns "MTR"), (String.eqb ns "ICMP"),
        (String.eqb n (Name t)); reflexivity.
  - destruct (mark_ok tmp (Type_ t) (Name t) Hk Hin) as (tmp1 & E1 & K1 & S1).
    exists tmp1. split; [done|]. split.
    + intros m. simpl. unfold clash, namespaces.
      apply String.eqb_neq in Hc. rewrite Hc. simpl. rewrite orb_false_r.
      destruct (seen tmp (Type_ t) (Name t)); [done|]. by rewrite E1.
    + intros u. apply clash_round. intros ns n. rewrite S1.
      unfold in_namespace, namespaces.
      apply String.eqb_neq in Hc. rewrite Hc. simpl. by rewrite orb_false_r.
Qed.

(** The state of the loop after a prefix without duplicate: the rest of the
    list is checked against the entries of the prefix. *)
Lemma HasDuplicateTargets_from_prefix tmp pre :
  keys_ok tmp -> Forall declared pre ->
  (forall t, t ∈ pre -> clash tmp t = false) -> ~ duplicate_pair pre ->
  exists tmp',
    keys_ok tmp' /\
    (forall rest,
       HasDuplicateTargets_from tmp (pre ++ rest)%list =
       HasDuplicateTargets_from tmp' rest) /\
    (forall u,
       clash tmp' u = true <->
       clash tmp u = true \/ exists t, t ∈ pre /\ conflict t u).
Proof.
  intros Hk Hd. revert tmp Hk. induction Hd as [|t pre Ht Hpre IH];
    intros tmp Hk Hc Hn.
  - exists tmp. split; [done|]. split; [done|]. intros u. split; [auto|].
    intros [H|(t & Ht & _)]; [done|]. by apply elem_of_nil in Ht.
  - assert (clash tmp t = false) as Ct by (apply Hc, list_elem_of_here).
    rewrite duplicate_pair_cons in Hn.
    destruct (HasDuplicateTargets_step tmp t Hk Ht) as (tmp1 & K1 & E1 & S1).
    destruct (IH tmp1 K1) as (tmp2 & K2 & E2 & S2).
    + intros u Hu. apply not_true_is_false. rewrite S1. intros [H|H].
      * rewrite Hc in H; [done|by apply list_elem_of_further].
      * apply Hn. left. eauto.
    + intros H. apply Hn. by right.
    + exists tmp2. split; [done|]. split.
      * intros rest. rewrite <- app_comm_cons, E1, Ct. apply E2.
      * intros u. rewrite S2, S1. split.
        -- intros [[H|H]|(x & Hx & H)]; auto.
           ++ right. exists t. split; [apply list_elem_of_here|done].
           ++ right. exists x. split; [by apply list_elem_of_further|done].
        -- intros [H|(x & Hx & H)]; auto.
           apply elem_of_cons in Hx as [->|Hx]; eauto.
Qed.

Lemma HasDuplicateTargets_prefix pre :
  Forall declared pre -> ~ duplicate_pair pre ->
  exists tmp',
    keys_ok tmp' /\
    (forall rest,
       HasDuplicateTargets (pre ++ rest)%list =
       HasDuplicateTargets_from tmp' rest) /\
    (forall u, clash tmp' u = true <-> exists t, t ∈ pre /\ conflict t u).
Proof.
  intros Hd Hn.
  destruct (HasDuplicateTargets_from_prefix tmp_init pre keys_ok_init Hd)
    as (tmp' & K & E & S); [|done|].
  - intros t _. apply clash_init_false.
  - exists tmp'. split; [done|]. split; [done|]. intros u. rewrite S.
    rewrite clash_init_false. split; [intros [H|H]; done|auto].
Qed.

Lemma HasDuplicateTargets_outcomes (m : Targets) :
  HasDuplicateTargets m = Ret (false, None) \/
  (exists t, t ∈ m /\
     HasDuplicateTargets m = Ret (true, Some (duplicate_error t))) \/
  HasDuplicateTargets m = Panic nil_map_panic.
Proof.
  unfold HasDuplicateTargets. generalize tmp_init keys_ok_init.
  induction m as [|t m IH]; intros tmp Hk; [by left|].
  destruct (decide (Type_ t ∈ declared_types)) as [Hd|Hu].
  - destruct (HasDuplicateTargets_step tmp t Hk Hd) as (tmp1 & K1 & E1 & _).
    rewrite E1. destruct (clash tmp t).
    + right. left. exists t. split; [apply list_elem_of_here|done].
    + destruct (IH tmp1 K1) as [H|[(u & Hu & H)|H]]; auto.
      right. left. exists u. split; [by apply list_elem_of_further|done].
  - right. right. by apply HasDuplicateTargets_from_undeclared.
Qed.

(** X1.  The duplicate check has three outcomes: no error with [false], a
    duplicate-target error with [true] that names an entry of the list, or
    the panic of the nil map.  The flag is [true] exactly when the error is
    not nil. *)
Theorem X1_duplicate_check_outcomes (m : Targets) :
  HasDuplicateTargets m = Ret (false, None) \/
  (exists t, t ∈ m /\
     HasDuplicateTargets m = Ret (true, Some (duplicate_error t))) \/
  HasDuplicateTargets m = Panic nil_map_panic.
Proof. apply HasDuplicateTargets_outcomes. Qed.

Lemma HasDuplicateTargets_clean_declared m :
  HasDuplicateTargets m = Ret (false, None) -> Forall declared m.
Proof.
  unfold HasDuplicateTargets. generalize tmp_init keys_ok_init.
  induction m as [|t m IH]; intros tmp Hk H; [constructor|].
  destruct (decide (Type_ t ∈ declared_types)) as [Hd|Hu].
  - destruct (HasDuplicateTargets_step tmp t Hk Hd) as (tmp1 & K1 & E1 & _).
    rewrite E1 in H. destruct (clash tmp t); [done|].
    constructor; [done|]. by apply (IH tmp1).
  - by rewrite HasDuplicateTargets_from_undeclared in H.
Qed.

Lemma HasDuplicateTargets_passes m :
  HasDuplicateTargets m = Ret (false, None) <->
  Forall declared m /\ ~ duplicate_pair m.
Proof.
  split.
  - intros H. pose proof (HasDuplicateTargets_clean_declared m H) as Hd.
    split; [done|]. intros D.
    destruct (proj1 (HasDuplicateTargets_declared m Hd) D) as (t & _ & E).
    rewrite E in H. discriminate.
  - intros [Hd Hn]. by apply HasDuplicateTargets_declared.
Qed.

(** X2.  The duplicate check returns without error exactly when every type
    of the list is one of the five declared ones and no two entries have one
    name in a common namespace. *)
Theorem X2_duplicate_check_passes (m : Targets) :
  HasDuplicateTargets m = Ret (false, None) <->
  Forall declared m /\ ~ duplicate_pair m.
Proof. apply HasDuplicateTargets_passes. Qed.

(** A list of two targets of the same name, one TCP and one HTTPGet. *)
Lemma X2_duplicate_check_passes_witness :
  HasDuplicateTargets
    [target_of "web" "192.0.2.9" "TCP" None;
     target_of "web" "192.0.2.9" "HTTPGet" None] = Ret (false, None).
Proof.
  apply (proj2 (X2_duplicate_check_passes _)). split.
  - declared_types_tac.
  - intros (i & j & a & b & Hlt & Hi & Hj & _ & S).
    destruct i as [|[|i]], j as [|[|j]]; try lia; try discriminate.
    simpl in Hi, Hj. injection Hi as <-. injection Hj as <-.
    destruct S as [S|[[S _]|[_ S]]]; discriminate.
Defined.

(** X3.  The first entry that conflicts with an earlier one, or whose type
    is not declared, decides the result: the error names that entry, or the
    check panics, whatever follows it in the list. *)
Theorem X3_first_offender_decides (pre post : Targets) (u : Target) :
  Forall declared pre -> ~ duplicate_pair pre ->
  (declared u -> (exists t, t ∈ pre /\ conflict t u) ->
   HasDuplicateTargets (pre ++ u :: post)%list =
   Ret (true, Some (duplicate_error u))) /\
  (Type_ u ∉ declared_types ->
   HasDuplicateTargets (pre ++ u :: post)%list = Panic nil_map_panic).
Proof.
  intros Hd Hn. destruct (HasDuplicateTargets_prefix pre Hd Hn)
    as (tmp' & K & E & S).
  split.
  - intros Du C. rewrite E.
    destruct (HasDuplicateTargets_step tmp' u K Du) as (tmp1 & _ & E1 & _).
    rewrite E1. by rewrite (proj2 (S u) C).
  - intros Hu. rewrite E. by apply HasDuplicateTargets_from_undeclared.
Qed.

(** The third entry repeats the first; the undeclared fourth is not
    reached. *)
Lemma X3_first_offender_decides_witness :
  HasDuplicateTargets
    ([target_of "db1" "192.0.2.7" "ICMP" None;
      target_of "db2" "192.0.2.8" "ICMP" None] ++
     target_of "db1" "192.0.2.7" "ICMP+MTR" None ::
     [target_of "x" "192.0.2.9" "FOO" None])%list =
  Ret (true, Some (duplicate_error (target_of "db1" "192.0.2.7" "ICMP+MTR" None))).
Proof.
  assert (Forall declared
            [target_of "db1" "192.0.2.7" "ICMP" None;
             target_of "db2" "192.0.2.8" "ICMP" None]) as Hd
    by declared_types_tac.
  assert (~ duplicate_pair
            [target_of "db1" "192.0.2.7" "ICMP" None;
             target_of "db2" "192.0.2.8" "ICMP" None]) as Hn.
  { intros (i & j & a & b & Hlt & Hi & Hj & N & _).
    destruct i as [|[|i]], j as [|[|j]]; try lia; try discriminate.
    simpl in Hi, Hj. injection Hi as <-. injection Hj as <-. discriminate. }
  apply (proj1 (X3_first_offender_decides _
    [target_of "x" "192.0.2.9" "FOO" None]
    (target_of "db1" "192.0.2.7" "ICMP+MTR" None) Hd Hn)).
  - unfold declared, declared_types. cbn. in_list.
  - exists (target_of "db1" "192.0.2.7" "ICMP" None).
    split; [apply list_elem_of_here|]. split; [reflexivity|].
    right. right. split; [by left|reflexivity].
Defined.

(** Removing and reordering entries keeps a list free of duplicates. *)
Lemma conflict_sym t u : conflict t u -> conflict u t.
Proof.
  intros [E S]. split; [done|].
  destruct S as [S|[[S1 S2]|[S1 S2]]]; [by left|right; right|right; left];
    split; try done; destruct S2 as [S2|S2] || destruct S1 as [S1|S1]; auto.
Qed.

Lemma duplicate_pair_submseteq (m' m : Targets) :
  m' ⊆+ m -> duplicate_pair m' -> duplicate_pair m.
Proof.
  induction 1 as [|x l1 l2 H IH|x y l|x l1 l2 H IH|l1 l2 l3 H1 IH1 H2 IH2].
  - done.
  - rewrite !duplicate_pair_cons. intros [(u & Hu & C)|D]; [left|right; auto].
    exists u. split; [|done]. by eapply elem_of_submseteq.
  - rewrite !duplicate_pair_cons.
    intros [(u & Hu & C)|[(u & Hu & C)|D]]; auto.
    + apply elem_of_cons in Hu as [->|Hu].
      * left. exists y. split; [apply list_elem_of_here|by apply conflict_sym].
      * right. left. eauto.
    + left. exists u. split; [by apply list_elem_of_further|done].
  - rewrite duplicate_pair_cons. auto.
  - auto.
Qed.

(** X4.  A list that passes the duplicate check still passes after entries
    are removed from it or put in another order. *)
Theorem X4_passing_lists_closed (m' m : Targets) :
  m' ⊆+ m ->
  HasDuplicateTargets m = Ret (false, None) ->
  HasDuplicateTargets m' = Ret (false, None).
Proof.
  intros S H. apply HasDuplicateTargets_passes in H as [Hd Hn].
  apply HasDuplicateTargets_passes. split.
  - apply Forall_forall. intros t Ht.
    apply (proj1 (Forall_forall _ _) Hd). by eapply elem_of_submseteq.
  - intros D. apply Hn. by eapply duplicate_pair_submseteq.
Qed.

(** A database target moves behind a web target. *)
Lemma X4_passing_lists_closed_witness :
  HasDuplicateTargets
    [target_of "web" "192.0.2.9" "TCP" None;
     target_of "db1" "192.0.2.7" "ICMP" None] = Ret (false, None).
Proof.
  apply (X4_passing_lists_closed _
           [target_of "db1" "192.0.2.7" "ICMP" None;
            target_of "db1" "192.0.2.7" "MTR" None;
            target_of "web" "192.0.2.9" "TCP" None]).
  - apply (submseteq_trans _
             [target_of "db1" "192.0.2.7" "ICMP" None;
              target_of "web" "192.0.2.9" "TCP" None]).
    + apply submseteq_swap.
    + apply submseteq_skip, submseteq_cons. reflexivity.
  - reflexivity.
Defined.

(** * Further properties of the loop of ReloadConfig *)

Lemma MatchString_TCP : MatchString re "TCP" = true.
Proof. reflexivity. Qed.

(** The outcomes of one round. *)
Lemma validate_one_cases env hostname t targets w :
  (MatchString re (Type_ t) = false /\
   validate_one env hostname re t targets w =
   (Ret targets, log_to w (unknown_type_record t))) \/
  (MatchString re (Type_ t) = true /\
   common_SrvRecordCheck env (Host t) = false /\
   validate_one env hostname re t targets w =
   (Ret (targets ++ replicate (times hostname t) t)%list, w)) \/
  (common_SrvRecordCheck env (Host t) = true /\ Type_ t = "TCP" /\
   exists e, srv_proto (Host t) = Panic e /\
     validate_one env hostname re t targets w = (Panic e, w)) \/
  (common_SrvRecordCheck env (Host t) = true /\ Type_ t = "TCP" /\
   exists proto, srv_proto (Host t) = Ret proto /\
     strings.EqualFold "TCP" proto = false /\
     validate_one env hostname re t targets w =
     (Ret targets, log_to w (protocol_record t proto))) \/
  (MatchString re (Type_ t) = true /\
   common_SrvRecordCheck env (Host t) = true /\ srv_protocol_ok t /\
   exists err, common_SrvRecordHosts env (Host t) = Failed err /\
     validate_one env hostname re t targets w =
     (Ret targets, log_to w (lookup_record t err))) \/
  (MatchString re (Type_ t) = true /\
   common_SrvRecordCheck env (Host t) = true /\ srv_protocol_ok t /\
   exists hosts, common_SrvRecordHosts env (Host t) = Val hosts /\
     validate_one env hostname re t targets w =
     (Ret (targets ++
           flat_map (fun h => replicate (times hostname t) (sub_target t h))
             hosts)%list, w)).
Proof.
  destruct (MatchString re (Type_ t)) eqn:Hm.
  2:{ left. split; [done|]. unfold validate_one. rewrite Hm.
      by destruct (common_SrvRecordCheck env (Host t)). }
  right. destruct (common_SrvRecordCheck env (Host t)) eqn:Hs.
  2:{ left. split; [done|]. split; [done|]. by apply validate_one_literal. }
  right.
  assert (srv_protocol_ok t ->
          (exists err, common_SrvRecordHosts env (Host t) = Failed err /\
             validate_one env hostname re t targets w =
             (Ret targets, log_to w (lookup_record t err))) \/
          (exists hosts, common_SrvRecordHosts env (Host t) = Val hosts /\
             validate_one env hostname re t targets w =
             (Ret (targets ++
                   flat_map (fun h => replicate (times hostname t) (sub_target t h))
                     hosts)%list, w))) as Hok.
  { intros Hp. destruct (common_SrvRecordHosts env (Host t)) as [hosts|err] eqn:Hl.
    - right. exists hosts. split; [done|]. by apply validate_one_srv.
    - left. exists err. split; [done|].
      unfold validate_one, bind_M, lift, unit_M, logger_Error.
      rewrite Hs, Hm. simpl.
      destruct (String.eqb_spec (Type_ t) "TCP") as [E|_].
      + destruct (Hp E) as (proto & P1 & P2). rewrite P1, E, P2. simpl.
        by rewrite Hl.
      + by rewrite Hl. }
  destruct (String.eqb_spec (Type_ t) "TCP") as [E|N].
  - destruct (srv_proto (Host t)) as [proto|e] eqn:P.
    + destruct (strings.EqualFold "TCP" proto) eqn:F.
      * do 2 right.
        assert (srv_protocol_ok t) as Hp by (intros _; eauto).
        destruct (Hok Hp) as [H|H]; [left|right]; auto.
      * right. left. split; [done|]. split; [done|]. exists proto.
        split; [done|]. split; [done|].
        clear Hok. destruct t as [n h ty px pr si lb].
        cbn [Type_ Host] in *. subst ty.
        unfold validate_one, bind_M, lift, unit_M, logger_Error.
        cbn [Host Type_ Name]. rewrite Hs, Hm. cbn [negb String.eqb Ascii.eqb Bool.eqb].
        rewrite P, F. reflexivity.
    + left. split; [done|]. split; [done|]. exists e. split; [done|].
      clear Hok. destruct t as [n h ty px pr si lb].
        cbn [Type_ Host] in *. subst ty.
      unfold validate_one, bind_M, lift, unit_M.
      cbn [Host Type_ Name]. rewrite Hs, Hm. cbn [negb String.eqb Ascii.eqb Bool.eqb].
      rewrite P. reflexivity.
  - do 2 right. assert (srv_protocol_ok t) as Hp by (intros E; done).
    destruct (Hok Hp) as [H|H]; [left|right]; auto.
Qed.

Lemma loop_record_unknown t : loop_record (unknown_type_record t).
Proof. split; [done|]. unfold loop_messages. simpl. in_list. Qed.

Lemma loop_record_protocol t p : loop_record (protocol_record t p).
Proof. split; [done|]. unfold loop_messages. simpl. in_list. Qed.

Lemma loop_record_lookup t e : loop_record (lookup_record t e).
Proof. split; [done|]. unfold loop_messages. simpl. in_list. Qed.

(** What one round does to the world. *)
Lemma validate_one_world env hostname t targets w :
  snd (validate_one env hostname re t targets w) = w \/
  exists r, loop_record r /\
    validate_one env hostname re t targets w = (Ret targets, log_to w r).
Proof.
  destruct (validate_one_cases env hostname t targets w)
    as [(_ & E)|[(_ & _ & E)|[(_ & _ & e & _ & E)|[(_ & _ & p & _ & _ & E)|
        [(_ & _ & _ & e & _ & E)|(_ & _ & _ & hs & _ & E)]]]]];
    rewrite E; simpl; auto; right.
  - exists (unknown_type_record t). split; [apply loop_record_unknown|done].
  - exists (protocol_record t p). split; [apply loop_record_protocol|done].
  - exists (lookup_record t e). split; [apply loop_record_lookup|done].
Qed.

(** X5.  One round of the loop logs at most one record, an error with one
    of the three messages of the loop, and when it logs one it leaves the
    list as it was.  A target with a literal host that the probe filter
    drops is not logged. *)
Theorem X5_round_logs_rejections env hostname t targets w :
  (snd (validate_one env hostname re t targets w) = w \/
   exists r, loop_record r /\
     validate_one env hostname re t targets w = (Ret targets, log_to w r)) /\
  (forall ps,
     MatchString re (Type_ t) = true ->
     common_SrvRecordCheck env (Host t) = false ->
     Probe t = Some ps -> hostname ∉ ps ->
     validate_one env hostname re t targets w = (Ret targets, w)).
Proof.
  split; [apply validate_one_world|].
  intros ps Hm Hs Hp Hn. rewrite (validate_one_literal _ _ _ _ _ Hm Hs).
  destruct (times hostname t) eqn:T; [by rewrite app_nil_r|].
  exfalso. apply Hn, (times_positive hostname t ps Hp). lia.
Qed.

(** A target assigned to another runner leaves no trace. *)
Lemma X5_round_logs_rejections_witness :
  validate_one (env_of "runner" (config_of 30 []) literal_hosts no_lookup)
    "runner" re (target_of "a" "10.0.0.1" "ICMP" (Some ["other"])) [] quiet =
  (Ret [], quiet).
Proof.
  apply (proj2 (X5_round_logs_rejections
    (env_of "runner" (config_of 30 []) literal_hosts no_lookup) "runner"
    (target_of "a" "10.0.0.1" "ICMP" (Some ["other"])) [] quiet) ["other"]);
    try reflexivity.
  intros H. apply list_elem_of_singleton in H. discriminate.
Defined.

(** The log of the loop. *)
Lemma validate_all_world env hostname ts acc w :
  exists recs,
    snd (validate_all env hostname re ts acc w) =
      {| live := live w; logged := (logged w ++ recs)%list |} /\
    Forall loop_record recs /\ (List.length recs <= List.length ts)%nat.
Proof.
  revert acc w. induction ts as [|t ts IH]; intros acc w.
  - exists []. simpl. rewrite app_nil_r. by destruct w.
  - cbn [validate_all]. unfold bind_M.
    destruct (validate_one_world env hostname t acc w) as [E|(r & Hr & E)].
    + destruct (validate_one env hostname re t acc w) as [[x|e] w1];
        simpl in E; subst w1.
      * destruct (IH x w) as (recs & E & F & L). exists recs.
        split; [done|]. split; [done|]. simpl. lia.
      * exists []. simpl. rewrite app_nil_r. split; [by destruct w|].
        split; [constructor|lia].
    + rewrite E. destruct (IH acc (log_to w r)) as (recs & E' & F & L).
      exists (r :: recs). rewrite E'. simpl. rewrite <- app_assoc.
      split; [done|]. split; [by constructor|lia].
Qed.

(** The stages of a reload, from its result. *)
Lemma ReloadConfig_cases env confFile w :
  (snd (ReloadConfig env confFile w) = w /\
   fst (ReloadConfig env confFile w) <> Ret None) \/
  exists hostname f c0 c,
    os_Hostname env = Val hostname /\ os_Open env confFile = Val f /\
    yaml_Decode env f = Val c0 /\ defaults_Set env c0 = Val c /\
    ((exists e w',
        validate_all env hostname re (Config_Targets c) [] w = (Panic e, w') /\
        ReloadConfig env confFile w = (Panic e, w')) \/
     (exists targets w',
        resolves env confFile w hostname c targets w')).
Proof.
  destruct (os_Hostname env) as [hostname|e] eqn:H1.
  2:{ left. unfold ReloadConfig. rewrite H1. by split. }
  destruct (os_Open env confFile) as [f|e] eqn:H2.
  2:{ left. unfold ReloadConfig. rewrite H1, H2. by split. }
  destruct (yaml_Decode env f) as [c0|e] eqn:H3.
  2:{ left. unfold ReloadConfig. rewrite H1, H2, H3. by split. }
  destruct (defaults_Set env c0) as [c|e] eqn:H4.
  2:{ left. unfold ReloadConfig. rewrite H1, H2, H3, H4. by split. }
  right. exists hostname, f, c0, c. repeat (split; [done|]).
  destruct (validate_all env hostname re (Config_Targets c) [] w)
    as [[targets|e] w'] eqn:V.
  - right. exists targets, w', f, c0. by repeat split.
  - left. exists e, w'. split; [done|].
    unfold ReloadConfig. rewrite H1, H2, H3, H4, MustCompile_pattern.
    unfold bind_M at 1. unfold lift at 1. unfold bind_M at 1. by rewrite V.
Qed.

Lemma ReloadConfig_resolved_world env confFile w hostname c targets w' :
  resolves env confFile w hostname c targets w' ->
  logged (snd (ReloadConfig env confFile w)) = logged w'.
Proof.
  intros R. rewrite (ReloadConfig_resolved _ _ _ _ _ _ _ R).
  destruct (HasDuplicateTargets targets) as [[b [err|]]|e]; try done.
  by destruct (precheck (set_Targets c targets)).
Qed.

(** X7.  A reload only appends to the log, and what it appends are error
    records with one of the three messages of the loop, at most one for
    each target of the file it read; a reload that cannot read the file
    (open, decode or defaults fail) logs nothing. *)
Theorem X7_reload_log env confFile w :
  exists recs,
    logged (snd (ReloadConfig env confFile w)) = (logged w ++ recs)%list /\
    Forall loop_record recs /\
    (forall c, reads env confFile c ->
               (List.length recs <= List.length (Config_Targets c))%nat) /\
    ((forall c, ~ reads env confFile c) -> recs = []).
Proof.
  destruct (ReloadConfig_cases env confFile w)
    as [[E _]|(hostname & f & c0 & c & H1 & H2 & H3 & H4 & H)].
  - exists []. rewrite E, app_nil_r. split; [done|]. split; [constructor|].
    split; [simpl; lia|done].
  - destruct (validate_all_world env hostname (Config_Targets c) [] w)
      as (recs & E & F & L).
    exists recs. split; [|split; [done|split]].
    + destruct H as [(e & w' & V & R)|(targets & w' & R)].
      * rewrite R. rewrite V in E. simpl in *. by rewrite E.
      * rewrite (ReloadConfig_resolved_world _ _ _ _ _ _ _ R).
        destruct R as (f' & c0' & _ & _ & _ & _ & V). rewrite V in E.
        simpl in E. by rewrite E.
    + intros c' (f' & c0' & O & D & S). rewrite H2 in O. injection O as <-.
      rewrite H3 in D. injection D as <-. rewrite H4 in S. by injection S as <-.
    + intros N. exfalso. apply (N c). by exists f, c0.
Qed.

(** A file with two targets of unknown type: two records. *)
Lemma X7_reload_log_witness :
  (List.length
     (logged (snd (ReloadConfig
        (env_of "runner"
           (config_of 30 [target_of "a" "10.0.0.1" "FOO" None;
                          target_of "b" "10.0.0.2" "BAR" None])
           literal_hosts no_lookup)
        "network_exporter.yml" quiet))) <= 2)%nat.
Proof.
  destruct (X7_reload_log
    (env_of "runner"
       (config_of 30 [target_of "a" "10.0.0.1" "FOO" None;
                      target_of "b" "10.0.0.2" "BAR" None])
       literal_hosts no_lookup)
    "network_exporter.yml" quiet) as (recs & E & _ & L & _).
  rewrite E. simpl.
  apply (L (config_of 30 [target_of "a" "10.0.0.1" "FOO" None;
                          target_of "b" "10.0.0.2" "BAR" None])).
  exists "", (config_of 30 [target_of "a" "10.0.0.1" "FOO" None;
                            target_of "b" "10.0.0.2" "BAR" None]).
  repeat split.
Defined.

(** X8.  The loop returns a list exactly when every round yields one, and
    the list is then what it started from followed by the yields of the
    targets in the order of the file. *)
Theorem X8_resolved_in_file_order env hostname ts acc w targets :
  fst (validate_all env hostname re ts acc w) = Ret targets <->
  exists ys,
    Forall2 (fun t y => yield env hostname t = Ret y) ts ys /\
    targets = (acc ++ List.concat ys)%list.
Proof. apply validate_all_yields. Qed.

(** What a round yields. *)
Lemma yield_elem env hostname t ys r :
  yield env hostname t = Ret ys -> r ∈ ys ->
  MatchString re (Type_ r) = true /\ assigned_to hostname r /\
  ((r = t /\ common_SrvRecordCheck env (Host t) = false) \/
   (common_SrvRecordCheck env (Host t) = true /\
    exists hosts h,
      common_SrvRecordHosts env (Host t) = Val hosts /\ h ∈ hosts /\
      r = sub_target t h)).
Proof.
  assert (forall u, (0 < times hostname u)%nat -> assigned_to hostname u) as A.
  { intros u H. unfold assigned_to. destruct (Probe u) as [ps|] eqn:P; [|by left].
    right. exists ps. split; [done|]. by apply (times_positive hostname u ps). }
  unfold yield.
  destruct (validate_one_cases env hostname t [] quiet)
    as [(_ & E)|[(Hm & Hs & E)|[(_ & _ & e & _ & E)|[(_ & _ & p & _ & _ & E)|
        [(_ & _ & _ & e & _ & E)|(Hm & Hs & _ & hs & Hl & E)]]]]];
    rewrite E; simpl; intros [= <-] Hr;
    try (by apply elem_of_nil in Hr).
  - apply elem_of_replicate in Hr as [-> N]. split; [done|].
    split; [apply A; lia|]. by left.
  - apply list_elem_of_In, in_flat_map in Hr as (h & Hh & Hr).
    apply list_elem_of_In, elem_of_replicate in Hr as [-> N].
    split; [done|]. split.
    + apply A. change (times hostname (sub_target t h)) with (times hostname t).
      lia.
    + right. split; [done|]. exists hs, h. split; [done|].
      split; [by apply list_elem_of_In|done].
Qed.

Lemma resolved_elem env hostname ts w targets w' r :
  validate_all env hostname re ts [] w = (Ret targets, w') -> r ∈ targets ->
  MatchString re (Type_ r) = true /\ assigned_to hostname r /\
  resolved_from env ts r.
Proof.
  intros V Hr.
  assert (fst (validate_all env hostname re ts [] w) = Ret targets) as F
    by (by rewrite V).
  apply validate_all_yields in F as (ys & F & ->). simpl in Hr.
  apply list_elem_of_In, in_concat in Hr as (y & Hy & Hr).
  apply list_elem_of_In in Hr.
  apply list_elem_of_In, list_elem_of_lookup in Hy as [i Hi].
  destruct (Forall2_lookup_r _ _ _ _ _ F Hi) as (t & Ht & Y).
  destruct (yield_elem env hostname t y r Y Hr) as (M & A & P).
  split; [done|]. split; [done|]. exists t.
  split; [apply list_elem_of_lookup; eauto|done].
Qed.

(** X9.  Every target of the list the loop leaves has a type the pattern
    matches, is unassigned or assigned to the runner, and is a target of
    the file with a literal host or the expansion of one with an SRV host
    to a host that its lookup returned. *)
Theorem X9_resolved_targets_sound env hostname ts w targets w' r :
  validate_all env hostname re ts [] w = (Ret targets, w') ->
  r ∈ targets ->
  MatchString re (Type_ r) = true /\ assigned_to hostname r /\
  resolved_from env ts r.
Proof. apply resolved_elem. Qed.

(** The one resolved target of a file with a target for this runner and one
    for another. *)
Lemma X9_resolved_targets_sound_witness :
  assigned_to "runner" (target_of "a" "10.0.0.1" "ICMP" (Some ["runner"])) /\
  resolved_from (env_of "runner" (config_of 30 []) literal_hosts no_lookup)
    [target_of "a" "10.0.0.1" "ICMP" (Some ["runner"]);
     target_of "b" "10.0.0.2" "ICMP" (Some ["other"])]
    (target_of "a" "10.0.0.1" "ICMP" (Some ["runner"])).
Proof.
  refine (proj2 (X9_resolved_targets_sound
    (env_of "runner" (config_of 30 []) literal_hosts no_lookup) "runner"
    [target_of "a" "10.0.0.1" "ICMP" (Some ["runner"]);
     target_of "b" "10.0.0.2" "ICMP" (Some ["other"])]
    quiet [target_of "a" "10.0.0.1" "ICMP" (Some ["runner"])] quiet
    (target_of "a" "10.0.0.1" "ICMP" (Some ["runner"])) _ _)).
  - reflexivity.
  - apply list_elem_of_here.
Defined.

Lemma validate_one_panics env hostname t targets w e :
  fst (validate_one env hostname re t targets w) = Panic e <->
  common_SrvRecordCheck env (Host t) = true /\ Type_ t = "TCP" /\
  srv_proto (Host t) = Panic e.
Proof.
  destruct (validate_one_cases env hostname t targets w)
    as [(Hm & E)|[(Hm & Hs & E)|[(Hs & Ht & e' & P & E)|[(Hs & Ht & p & P & _ & E)|
        [(Hm & Hs & Ho & e' & _ & E)|(Hm & Hs & Ho & hs & Hl & E)]]]]];
    rewrite E; simpl; split; try done.
  - intros (_ & Ht & _). rewrite Ht, MatchString_TCP in Hm. done.
  - intros (Hs' & _). congruence.
  - intros [= <-]. done.
  - intros (_ & _ & P'). congruence.
  - intros (_ & _ & P'). congruence.
  - intros (_ & Ht & P'). destruct (Ho Ht) as (p & P & _). congruence.
  - intros (_ & Ht & P'). destruct (Ho Ht) as (p & P & _). congruence.
Qed.

Lemma validate_all_panics env hostname ts acc w e w' :
  validate_all env hostname re ts acc w = (Panic e, w') ->
  exists t, t ∈ ts /\ common_SrvRecordCheck env (Host t) = true /\
    Type_ t = "TCP" /\ srv_proto (Host t) = Panic e.
Proof.
  revert acc w. induction ts as [|t ts IH]; intros acc w; [done|].
  cbn [validate_all]. unfold bind_M.
  destruct (validate_one env hostname re t acc w) as [[x|e1] w1] eqn:V.
  - intros H. destruct (IH _ _ H) as (u & Hu & P). exists u.
    split; [by apply list_elem_of_further|done].
  - intros [= -> ->]. exists t. split; [apply list_elem_of_here|].
    apply (validate_one_panics env hostname t acc w e). by rewrite V.
Qed.

(** X10.  A round of the loop panics exactly on a TCP target with an SRV
    host whose second label is missing or empty, and the loop panics only
    when the file has such a target. *)
Theorem X10_loop_panics_only_on_TCP_SRV env hostname :
  (forall t targets w e,
     fst (validate_one env hostname re t targets w) = Panic e <->
     common_SrvRecordCheck env (Host t) = true /\ Type_ t = "TCP" /\
     srv_proto (Host t) = Panic e) /\
  (forall ts acc w e w',
     validate_all env hostname re ts acc w = (Panic e, w') ->
     exists t, t ∈ ts /\ common_SrvRecordCheck env (Host t) = true /\
       Type_ t = "TCP" /\ srv_proto (Host t) = Panic e).
Proof.
  split.
  - intros. apply validate_one_panics.
  - intros ts acc w e w'. apply validate_all_panics.
Qed.

(** A TCP target whose SRV host has no dot. *)
Lemma X10_loop_panics_only_on_TCP_SRV_witness :
  exists e,
    fst (validate_one (env_of "runner" (config_of 30 []) srv_hosts no_lookup)
           "runner" re (target_of "a" "localhost" "TCP" None) [] quiet) =
    Panic e.
Proof.
  exists "index out of range [1]".
  apply (proj2 (proj1 (X10_loop_panics_only_on_TCP_SRV
    (env_of "runner" (config_of 30 []) srv_hosts no_lookup) "runner")
    (target_of "a" "localhost" "TCP" None) [] quiet _)).
  repeat split.
Defined.

(** * The protocol label of an SRV host *)

Lemma Split_nonempty s : strings.Split s "." <> [].
Proof.
  destruct s as [|c s]; simpl; [done|].
  destruct (Ascii.eqb c "."); [done|]. by destruct (strings.Split s ".").
Qed.

Lemma Split_no_dot s : no_dot s = true -> strings.Split s "." = [s].
Proof.
  induction s as [|c s IH]; simpl; [done|].
  intros H. apply andb_true_iff in H as [H1 H2].
  apply negb_true_iff in H1. rewrite H1, (IH H2). done.
Qed.

Lemma Split_label s rest :
  no_dot s = true ->
  strings.Split (s ++ String "." rest) "." = s :: strings.Split rest ".".
Proof.
  induction s as [|c s IH]; intros H.
  - done.
  - simpl in H. apply andb_true_iff in H as [H1 H2].
    apply negb_true_iff in H1. rewrite append_cons.
    cbn [strings.Split]. rewrite H1, (IH H2). done.
Qed.

Lemma srv_proto_labels a b tail :
  no_dot a = true -> no_dot b = true ->
  tail = "" \/ (exists rest, tail = String "." rest) ->
  srv_proto (a ++ String "." (b ++ tail)) =
  strings.slice_from_1 b.
Proof.
  intros Ha Hb Ht. unfold srv_proto. rewrite (Split_label a _ Ha).
  destruct Ht as [->|[rest ->]].
  - rewrite append_nil_r, (Split_no_dot b Hb). done.
  - rewrite (Split_label b _ Hb). done.
Qed.

(** X11.  The protocol of an SRV host is its second dot-separated label
    without the first byte: for [service.Xproto] and [service.Xproto.domain]
    it is [proto].  A host without a dot, and a host whose second label is
    empty, make the expression panic. *)
Theorem X11_srv_proto_of_host (a label tail : string) :
  no_dot a = true -> no_dot label = true ->
  tail = "" \/ (exists rest, tail = String "." rest) ->
  (exists e, srv_proto a = Panic e) /\
  (label = "" ->
   exists e, srv_proto (a ++ String "." (label ++ tail)) = Panic e) /\
  (forall c proto,
     label = String c proto ->
     srv_proto (a ++ String "." (label ++ tail)) = Ret proto).
Proof.
  intros Ha Hb Ht. rewrite (srv_proto_labels a label tail Ha Hb Ht).
  split; [|split].
  - unfold srv_proto. rewrite (Split_no_dot a Ha). simpl. eauto.
  - intros ->. simpl. eauto.
  - by intros c proto ->.
Qed.

(** The host [_sip._tcp.example.org]. *)
Lemma X11_srv_proto_of_host_witness :
  srv_proto "_sip._tcp.example.org" = Ret "tcp".
Proof.
  apply (proj2 (proj2 (X11_srv_proto_of_host "_sip" "_tcp" ".example.org"
                         eq_refl eq_refl
                         (or_intror (ex_intro _ "example.org" eq_refl))))
           "_"%char "tcp" eq_refl).
Defined.

(** The bytes that fold to T, to C and to P. *)
Lemma lower_T b :
  Ascii.eqb (strings.lower "T") (strings.lower b) = true <->
  b = "T"%char \/ b = "t"%char.
Proof.
  split.
  - destruct b as [[] [] [] [] [] [] [] []]; vm_compute; intros H;
      try discriminate H; auto.
  - by intros [->| ->].
Qed.

Lemma lower_C b :
  Ascii.eqb (strings.lower "C") (strings.lower b) = true <->
  b = "C"%char \/ b = "c"%char.
Proof.
  split.
  - destruct b as [[] [] [] [] [] [] [] []]; vm_compute; intros H;
      try discriminate H; auto.
  - by intros [->| ->].
Qed.

Lemma lower_P b :
  Ascii.eqb (strings.lower "P") (strings.lower b) = true <->
  b = "P"%char \/ b = "p"%char.
Proof.
  split.
  - destruct b as [[] [] [] [] [] [] [] []]; vm_compute; intros H;
      try discriminate H; auto.
  - by intros [->| ->].
Qed.

(** The strings that [strings.EqualFold] takes for equal to TCP. *)
Lemma EqualFold_TCP proto :
  strings.EqualFold "TCP" proto = true <-> proto ∈ tcp_spellings.
Proof.
  split.
  - destruct proto as [|b1 [|b2 [|b3 [|b4 rest]]]]; cbn [strings.EqualFold];
      intros H; repeat (apply andb_true_iff in H as [? H]);
      try discriminate H.
    match goal with
    | H1 : Ascii.eqb (strings.lower "T") _ = true,
      H2 : Ascii.eqb (strings.lower "C") _ = true,
      H3 : Ascii.eqb (strings.lower "P") _ = true |- _ =>
        apply lower_T in H1 as [->| ->]; apply lower_C in H2 as [->| ->];
        apply lower_P in H3 as [->| ->]
    end; unfold tcp_spellings; in_list.
  - unfold tcp_spellings. rewrite !elem_of_cons, elem_of_nil.
    intros H; repeat destruct H as [->|H]; done.
Qed.

(** X12.  The protocol check of a TCP target with an SRV host.  The label
    passes exactly when it is one of the eight spellings of tcp in upper
    and lower case.  A target whose label does not pass is dropped with one
    error record that names the label, whatever the lookup of the record
    would return.  A target whose label passes goes on to the lookup: the
    round is then the lookup error record, or the expansion of the target
    to the hosts of the record. *)
Theorem X12_tcp_protocol_check env hostname t targets w proto :
  Type_ t = "TCP" ->
  common_SrvRecordCheck env (Host t) = true ->
  srv_proto (Host t) = Ret proto ->
  (strings.EqualFold "TCP" proto = true <-> proto ∈ tcp_spellings) /\
  (strings.EqualFold "TCP" proto = false ->
   validate_one env hostname re t targets w =
   (Ret targets, log_to w (protocol_record t proto))) /\
  (strings.EqualFold "TCP" proto = true ->
   validate_one env hostname re t targets w =
   match common_SrvRecordHosts env (Host t) with
   | Failed err => (Ret targets, log_to w (lookup_record t err))
   | Val hosts => (Ret (expand hostname t hosts targets), w)
   end).
Proof.
  intros Ht Hs Hp. split; [apply EqualFold_TCP|].
  destruct (validate_one_cases env hostname t targets w)
    as [(Hm & E)|[(Hm & Hs' & E)|[(_ & _ & e' & P & E)|[(_ & _ & p & P & F' & E)|
        [(Hm & _ & Ho & e' & L & E)|(Hm & _ & Ho & hs & L & E)]]]]];
    try congruence.
  - rewrite Ht, MatchString_TCP in Hm. done.
  - split; intros F; [|congruence].
    rewrite Hp in P. injection P as <-. done.
  - destruct (Ho Ht) as (p & P & F'). rewrite Hp in P. injection P as <-.
    split; intros F; [congruence|]. by rewrite L.
  - destruct (Ho Ht) as (p & P & F'). rewrite Hp in P. injection P as <-.
    split; intros F; [congruence|]. by rewrite L, expand_eq.
Qed.

(** The record [_sip._udp.example.org] for a TCP target is rejected; the
    record [_sip._tcp.example.org], with the label in lower case, is looked
    up. *)
Lemma X12_tcp_protocol_check_witness :
  validate_one
    (env_of "runner" (config_of 30 []) srv_hosts (fun _ => Val ["10.0.0.1"]))
    "runner" re (target_of "sip" "_sip._udp.example.org" "TCP" None) [] quiet =
  (Ret [],
   log_to quiet
     (protocol_record (target_of "sip" "_sip._udp.example.org" "TCP" None) "udp")) /\
  validate_one
    (env_of "runner" (config_of 30 []) srv_hosts (fun _ => Val ["10.0.0.1"]))
    "runner" re (target_of "sip" "_sip._tcp.example.org" "TCP" None) [] quiet =
  (Ret [target_of "10.0.0.1" "10.0.0.1" "TCP" None], quiet).
Proof.
  split.
  - apply (proj1 (proj2 (X12_tcp_protocol_check
      (env_of "runner" (config_of 30 []) srv_hosts (fun _ => Val ["10.0.0.1"]))
      "runner" (target_of "sip" "_sip._udp.example.org" "TCP" None) [] quiet
      "udp" eq_refl eq_refl eq_refl)) eq_refl).
  - apply (proj2 (proj2 (X12_tcp_protocol_check
      (env_of "runner" (config_of 30 []) srv_hosts (fun _ => Val ["10.0.0.1"]))
      "runner" (target_of "sip" "_sip._tcp.example.org" "TCP" None) [] quiet
      "tcp" eq_refl eq_refl eq_refl)) eq_refl).
Defined.

(** * Further properties of ReloadConfig *)

(** A reload that returns nil, taken apart. *)
Lemma ReloadConfig_success env confFile w :
  fst (ReloadConfig env confFile w) = Ret None ->
  exists hostname c targets w',
    resolves env confFile w hostname c targets w' /\
    HasDuplicateTargets targets = Ret (false, None) /\
    precheck c = None /\
    snd (ReloadConfig env confFile w) = installed (set_Targets c targets) w'.
Proof.
  intros H.
  destruct (ReloadConfig_cases env confFile w)
    as [[_ N]|(hostname & f & c0 & c & _ & _ & _ & _ & [(e & w' & _ & R)|(targets & w' & R)])].
  - done.
  - rewrite R in H. discriminate.
  - exists hostname, c, targets, w'. split; [done|].
    rewrite (ReloadConfig_resolved _ _ _ _ _ _ _ R) in H |- *.
    rewrite precheck_set_Targets in *.
    destruct (HasDuplicateTargets_outcomes targets) as [D|[(t & _ & D)|D]];
      rewrite D in H |- *; try discriminate.
    split; [done|]. by destruct (precheck c).
Qed.

(** X13.  After a reload that returns nil, the live configuration is the
    configuration that was read with its targets replaced by the resolved
    list; the list has declared types only and no duplicate pair, each of
    its targets is unassigned or assigned to the runner and comes from a
    target of the file, and the intervals and the MTR bounds hold. *)
Theorem X13_installed_configuration env confFile w :
  fst (ReloadConfig env confFile w) = Ret None ->
  exists hostname c targets w',
    resolves env confFile w hostname c targets w' /\
    snd (ReloadConfig env confFile w) = installed (set_Targets c targets) w' /\
    Forall declared targets /\ ~ duplicate_pair targets /\
    (forall r, r ∈ targets ->
       assigned_to hostname r /\ resolved_from env (Config_Targets c) r) /\
    ~ interval_not_positive c /\ ~ max_hops_out_of_bounds c /\
    ~ count_out_of_bounds c.
Proof.
  intros H.
  destruct (ReloadConfig_success env confFile w H)
    as (hostname & c & targets & w' & R & D & P & E).
  exists hostname, c, targets, w'. split; [done|]. split; [done|].
  apply HasDuplicateTargets_passes in D as [Hd Hn].
  split; [done|]. split; [done|]. split.
  - intros r Hr. destruct R as (f & c0 & _ & _ & _ & _ & V).
    destruct (resolved_elem _ _ _ _ _ _ r V Hr) as (_ & A & F). by split.
  - destruct (precheck_cases c)
      as [(_ & Q)|[(_ & _ & Q)|[(_ & _ & _ & Q)|(I & M & C & _)]]];
      try congruence. by repeat split.
Qed.

(** A file with one target for this runner. *)
Lemma X13_installed_configuration_witness :
  exists hostname c targets w',
    snd (ReloadConfig
           (env_of "runner"
              (config_of 30 [target_of "a" "10.0.0.1" "ICMP" (Some ["runner"])])
              literal_hosts no_lookup)
           "network_exporter.yml" running) =
    installed (set_Targets c targets) w' /\
    Forall declared targets /\
    (forall r, r ∈ targets -> assigned_to hostname r).
Proof.
  destruct (X13_installed_configuration
    (env_of "runner"
       (config_of 30 [target_of "a" "10.0.0.1" "ICMP" (Some ["runner"])])
       literal_hosts no_lookup)
    "network_exporter.yml" running eq_refl)
    as (hostname & c & targets & w' & _ & E & Hd & _ & A & _).
  exists hostname, c, targets, w'. split; [exact E|]. split; [exact Hd|].
  intros r Hr. exact (proj1 (A r Hr)).
Defined.

(** The result of a reload and the configuration it installs do not depend
    on the world it starts from. *)
Lemma ReloadConfig_indep env confFile w w0 :
  fst (ReloadConfig env confFile w) = fst (ReloadConfig env confFile w0) /\
  (fst (ReloadConfig env confFile w) = Ret None ->
   live (snd (ReloadConfig env confFile w)) =
   live (snd (ReloadConfig env confFile w0))).
Proof.
  unfold ReloadConfig.
  destruct (os_Hostname env) as [hostname|e]; [|done].
  destruct (os_Open env confFile) as [f|e]; [|done].
  destruct (yaml_Decode env f) as [c0|e]; [|done].
  destruct (defaults_Set env c0) as [c|e]; [|done].
  rewrite MustCompile_pattern. unfold bind_M, lift.
  pose proof (validate_all_fst_indep env hostname (Config_Targets c) [] w w0) as H.
  destruct (validate_all env hostname re (Config_Targets c) [] w) as [r1 w1],
    (validate_all env hostname re (Config_Targets c) [] w0) as [r2 w2].
  simpl in H. subst r2. destruct r1 as [targets|e]; [|done].
  cbn [set_Targets Config_Targets].
  destruct (HasDuplicateTargets targets) as [[b [err|]]|e]; try done.
  cbn [snd]. by destruct (precheck (set_Targets c targets)).
Qed.

(** X14.  The result of a reload does not depend on the configuration it
    may replace or on the log: from any two states it returns the same
    error, nil or panic, and on nil it installs the same configuration.  So
    reloading the same file again changes nothing but the log. *)
Theorem X14_reload_repeatable env confFile w :
  (forall w0,
     fst (ReloadConfig env confFile w0) = fst (ReloadConfig env confFile w) /\
     (fst (ReloadConfig env confFile w) = Ret None ->
      live (snd (ReloadConfig env confFile w0)) =
      live (snd (ReloadConfig env confFile w)))) /\
  (fst (ReloadConfig env confFile w) = Ret None ->
   live (snd (ReloadConfig env confFile (snd (ReloadConfig env confFile w)))) =
   live (snd (ReloadConfig env confFile w))).
Proof.
  split.
  - intros w0. destruct (ReloadConfig_indep env confFile w w0) as [E L].
    split; [done|]. intros H. symmetry. by apply L.
  - intros H. symmetry. by apply ReloadConfig_indep.
Qed.

(** The running configuration is replaced by the same one twice. *)
Lemma X14_reload_repeatable_witness :
  live (snd (ReloadConfig
         (env_of "runner" (config_of 30 [target_of "a" "10.0.0.1" "ICMP" None])
            literal_hosts no_lookup)
         "network_exporter.yml"
         (snd (ReloadConfig
            (env_of "runner" (config_of 30 [target_of "a" "10.0.0.1" "ICMP" None])
               literal_hosts no_lookup)
            "network_exporter.yml" running)))) =
  live (snd (ReloadConfig
         (env_of "runner" (config_of 30 [target_of "a" "10.0.0.1" "ICMP" None])
            literal_hosts no_lookup)
         "network_exporter.yml" running)).
Proof.
  apply (proj2 (X14_reload_repeatable
    (env_of "runner" (config_of 30 [target_of "a" "10.0.0.1" "ICMP" None])
       literal_hosts no_lookup)
    "network_exporter.yml" running)).
  reflexivity.
Defined.






Lemma HasDuplicateTargets_panics m e :
  HasDuplicateTargets m = Panic e ->
  e = nil_map_panic /\ exists u, u ∈ m /\ Type_ u ∉ declared_types.
Proof.
  intros P. split.
  - destruct (HasDuplicateTargets_outcomes m) as [H|[(t & _ & H)|H]];
      rewrite H in P; congruence.
  - destruct (decide (Forall (fun t => Type_ t ∈ declared_types) m))
      as [F|N].
    + pose proof (HasDuplicateTargets_from_total tmp_init m keys_ok_init F)
        as [H'|(t & _ & H')]; unfold HasDuplicateTargets in P;
        rewrite H' in P; discriminate.
    + apply not_Forall_Exists in N; [|intros x; apply _].
      apply Exists_exists in N as (u & Hu & Hn). by exists u.
Qed.

(** X23.  Every error and every panic of a reload is one of a fixed list.
    An error is the error of opening the file after [reading config file: ],
    the error of decoding it after [parsing config file: ], the error of
    the defaults after [setting defaults: ], the duplicate-target error of
    a resolved target after [parsing config file: ], or one of the three
    messages of the sanity checks.  A panic is the error of the host name,
    the slice panic of a TCP target of the file with an SRV host, or the
    nil-map panic for a resolved target whose type is not declared. *)
Theorem X23_reload_outcomes env confFile w :
  (forall err,
     fst (ReloadConfig env confFile w) = Ret (Some err) ->
     (exists e, os_Open env confFile = Failed e /\
        err = "reading config file: " ++ e) \/
     (exists f e, os_Open env confFile = Val f /\
        yaml_Decode env f = Failed e /\
        err = "parsing config file: " ++ e) \/
     (exists f c0 e, os_Open env confFile = Val f /\
        yaml_Decode env f = Val c0 /\ defaults_Set env c0 = Failed e /\
        err = "setting defaults: " ++ e) \/
     (exists hostname c targets w' u,
        resolves env confFile w hostname c targets w' /\ u ∈ targets /\
        err = "parsing config file: " ++ duplicate_error u) \/
     err = "intervals (icmp,mtr,tcp,http_get) must be >0" \/
     err = "mtr.max-hops must be between 0 and 65500" \/
     err = "mtr.count must be between 0 and 65500") /\
  (forall e,
     fst (ReloadConfig env confFile w) = Panic e ->
     os_Hostname env = Failed e \/
     (exists f c0 c t,
        os_Open env confFile = Val f /\ yaml_Decode env f = Val c0 /\
        defaults_Set env c0 = Val c /\ t ∈ Config_Targets c /\
        common_SrvRecordCheck env (Host t) = true /\ Type_ t = "TCP" /\
        srv_proto (Host t) = Panic e) \/
     (e = nil_map_panic /\
      exists hostname c targets w' u,
        resolves env confFile w hostname c targets w' /\ u ∈ targets /\
        Type_ u ∉ declared_types)).
Proof.
  destruct (os_Hostname env) as [hostname|e0] eqn:H1.
  2:{ unfold ReloadConfig. rewrite H1. split; [discriminate|].
      intros e [= <-]. by left. }
  destruct (os_Open env confFile) as [f|e0] eqn:H2.
  2:{ unfold ReloadConfig. rewrite H1, H2. split; [|discriminate].
      intros err [= <-]. left. by exists e0. }
  destruct (yaml_Decode env f) as [c0|e0] eqn:H3.
  2:{ unfold ReloadConfig. rewrite H1, H2, H3. split; [|discriminate].
      intros err [= <-]. right. left. by exists f, e0. }
  destruct (defaults_Set env c0) as [c|e0] eqn:H4.
  2:{ unfold ReloadConfig. rewrite H1, H2, H3, H4. split; [|discriminate].
      intros err [= <-]. right. right. left. by exists f, c0, e0. }
  destruct (validate_all env hostname re (Config_Targets c) [] w)
    as [[targets|e0] w'] eqn:V.
  - assert (resolves env confFile w hostname c targets w') as R
      by (exists f, c0; by repeat split).
    rewrite (ReloadConfig_resolved _ _ _ _ _ _ _ R).
    destruct (HasDuplicateTargets targets) as [[b [derr|]]|e0] eqn:D.
    + split; [|discriminate]. intros err [= <-].
      destruct (HasDuplicateTargets_outcomes targets)
        as [H|[(u & Hu & H)|H]]; rewrite H in D; try discriminate.
      injection D as _ <-. do 3 right. left.
      by exists hostname, c, targets, w', u.
    + destruct (precheck_cases (set_Targets c targets))
        as [(_ & P)|[(_ & _ & P)|[(_ & _ & _ & P)|(_ & _ & _ & P)]]];
        rewrite P; (split; [|discriminate]).
      * intros err [= <-]. tauto.
      * intros err [= <-]. tauto.
      * intros err [= <-]. tauto.
      * discriminate.
    + split; [discriminate|]. intros e [= <-].
      apply HasDuplicateTargets_panics in D as (-> & u & Hu & Hn).
      right. right. split; [done|].
      by exists hostname, c, targets, w', u.
  - assert (ReloadConfig env confFile w = (Panic e0, w')) as E.
    { unfold ReloadConfig. rewrite H1, H2, H3, H4, MustCompile_pattern.
      unfold bind_M at 1. unfold lift at 1. unfold bind_M at 1.
      by rewrite V. }
    rewrite E. split; [discriminate|]. intros e [= <-].
    apply validate_all_panics in V as (t & Ht & S & Ty & P).
    right. left. by exists f, c0, c, t.
Qed.

(** A file whose only target has the type XMTR. *)
Lemma X23_reload_outcomes_witness :
  fst (ReloadConfig
         (env_of "runner"
            (config_of 30 [target_of "a" "10.0.0.1" "XMTR" None])
            literal_hosts no_lookup)
         "network_exporter.yml" running) = Panic nil_map_panic /\
  exists hostname c targets w' u,
    resolves
      (env_of "runner"
         (config_of 30 [target_of "a" "10.0.0.1" "XMTR" None])
         literal_hosts no_lookup)
      "network_exporter.yml" running hostname c targets w' /\
    u ∈ targets /\ Type_ u ∉ declared_types.
Proof.
  split; [reflexivity|].
  destruct (proj2 (X23_reload_outcomes
    (env_of "runner"
       (config_of 30 [target_of "a" "10.0.0.1" "XMTR" None])
       literal_hosts no_lookup)
    "network_exporter.yml" running) nil_map_panic eq_refl)
    as [A|[(f & c0 & c & t & _ & _ & _ & _ & S & _)|[_ E]]].
  - discriminate A.
  - discriminate S.
  - exact E.
Defined.


(** * Further properties of the scheduler *)

Section scheduler_more.

Context {W : Type}.
Implicit Types (s : target.system W) (t : target.PING W)
  (r d : target.PingResult W) (e : target.event W)
  (es : list (target.event W)).

Lemma ping_same t data t' :
  target.ping t data = Ret t' ->
  same_identity t' t /\ target.wg t' = target.wg t /\
  target.stop t' = target.stop t.
Proof.
  unfold target.ping. destruct data, (target.result t); try discriminate.
  intros [= <-]. by repeat split.
Qed.

Lemma step_stop_inv e s s' :
  target.step e s = Some s' -> stop_inv s -> stop_inv s'.
Proof.
  unfold stop_inv. intros H (I1 & I2 & I3 & I4).
  destruct e; simpl in H; step_cases H; injection H as <-; simpl in *;
    try match goal with
    | P : target.ping _ _ = Ret _ |- _ =>
        apply ping_same in P as (_ & P1 & P2); rewrite P1, P2
    end;
    repeat match goal with
    | E : target.run s = _ |- _ => rewrite E in *
    | E : target.stopper s = _ |- _ => rewrite E in *
    end;
    repeat split; try done; try tauto; try congruence; try lia;
    try (intros; apply I1; congruence).
  all: try (intros _; apply I1; congruence).
  all: try (rewrite I3; reflexivity).
  all: try (intros Hx; specialize (I4 Hx); discriminate).
  all: intros _; destruct (target.run s); simpl in I3; congruence.
Qed.

Lemma exec_stop_inv es s s' :
  target.exec es s = Some s' -> stop_inv s -> stop_inv s'.
Proof.
  revert s. induction es as [|e es IH]; intros s; simpl.
  - by intros [= <-].
  - destruct (target.step e s) as [s1|] eqn:St; [|done].
    intros Ex I. apply (IH s1 Ex). by apply (step_stop_inv e s).
Qed.

Lemma NewPing_stop_inv startupDelay name host ip srcAddr interval timeout
    count labels ipv6 (zero : W) :
  stop_inv
    (target.NewPing startupDelay name host ip srcAddr interval timeout count
       labels ipv6 zero).
Proof.
  unfold stop_inv. simpl. destruct (0 <? startupDelay); by repeat split.
Qed.

(** X16.  In every state a scheduler reaches, the tokens in [waitChan] are
    the goroutines the loop launched that have not yet released theirs, at
    most [MaxConcurrentJobs]; so at most that many probes run at a time, and
    with the channel full the loop cannot launch another. *)
Theorem X16_concurrency_gate
    (startupDelay : Z) (name host ip srcAddr : string)
    (interval timeout count : Z) (labels : gmap string string) (ipv6 : bool)
    (zero : W) es s :
  target.exec es
    (target.NewPing startupDelay name host ip srcAddr interval timeout count
       labels ipv6 zero) = Some s ->
  (target.probing s + target.releasing s = target.waitChan s)%nat /\
  (target.probing s <= target.MaxConcurrentJobs)%nat /\
  (target.waitChan s = target.MaxConcurrentJobs ->
   target.step target.Launched s = None).
Proof.
  intros E.
  pose proof (exec_inv es _ s E (NewPing_inv _ _ _ _ _ _ _ _ _ _ _))
    as (_ & _ & I3 & I4).
  split; [lia|]. split; [lia|]. intros F. simpl.
  destruct (target.run s); try done. by rewrite F.
Qed.

(** X17.  In every state a scheduler reaches: the stop channel is closed
    exactly when [Stop] has been called; the loop has returned only if the
    channel is closed, so only after a call of [Stop]; the wait group is at
    zero exactly when the loop has returned; and [Stop] has returned only
    if the loop has. *)
Theorem X17_stop_protocol
    (startupDelay : Z) (name host ip srcAddr : string)
    (interval timeout count : Z) (labels : gmap string string) (ipv6 : bool)
    (zero : W) es s :
  target.exec es
    (target.NewPing startupDelay name host ip srcAddr interval timeout count
       labels ipv6 zero) = Some s ->
  (target.stop (target.sched s) = true <->
   target.stopper s <> target.NotCalled) /\
  (target.run s = target.Exited -> target.stop (target.sched s) = true) /\
  (target.wg (target.sched s) = 0%nat <-> target.run s = target.Exited) /\
  (target.stopper s = target.Returned -> target.run s = target.Exited) /\
  (target.stopper s <> target.NotCalled -> calls_Stop es).
Proof.
  intros E.
  pose proof (exec_stop_inv es _ s E (NewPing_stop_inv _ _ _ _ _ _ _ _ _ _ _))
    as (I1 & I2 & I3 & I4).
  split; [done|]. split; [done|]. split; [|split; [done|]].
  - rewrite I3. destruct (target.run s); split; done.
  - clear I1 I2 I3 I4. unfold calls_Stop.
    assert (forall es s0,
              target.exec es s0 = Some s ->
              target.stopper s <> target.NotCalled ->
              target.stopper s0 = target.NotCalled ->
              target.StopCalled ∈ es) as H.
    { clear. intros es. induction es as [|e es IH]; intros s0; simpl.
      - intros [= <-] N C. done.
      - destruct (target.step e s0) as [s1|] eqn:St; [|done].
        intros Ex N C.
        destruct (target.stopper s1) eqn:D.
        + apply list_elem_of_further. by apply (IH s1).
        + assert (e = target.StopCalled) as ->; [|apply list_elem_of_here].
          destruct e; simpl in St; step_cases St; injection St as <-;
            simpl in *; congruence.
        + assert (e = target.StopCalled) as ->; [|apply list_elem_of_here].
          destruct e; simpl in St; step_cases St; injection St as <-;
            simpl in *; congruence. }
    intros N. by apply (H es _ E N).
Qed.

Lemma step_identity e s s' :
  target.step e s = Some s' ->
  same_identity (target.sched s') (target.sched s).
Proof.
  intros H. destruct e; simpl in H; step_cases H; injection H as <-;
    simpl; try (by repeat split).
  match goal with
  | P : target.ping _ _ = Ret _ |- _ => by apply ping_same in P as (P & _)
  end.
Qed.

Lemma same_identity_trans t1 t2 t3 :
  same_identity t1 t2 -> same_identity t2 t3 -> same_identity t1 t3.
Proof.
  unfold same_identity. intros H1 H2.
  destruct H1 as (a1 & a2 & a3 & a4 & a5 & a6 & a7 & a8 & a9).
  destruct H2 as (b1 & b2 & b3 & b4 & b5 & b6 & b7 & b8 & b9).
  repeat split; congruence.
Qed.

Lemma exec_identity es s s' :
  target.exec es s = Some s' ->
  same_identity (target.sched s') (target.sched s).
Proof.
  revert s. induction es as [|e es IH]; intros s; simpl.
  - intros [= <-]. by repeat split.
  - destruct (target.step e s) as [s1|] eqn:St; [|done].
    intros Ex. eapply same_identity_trans; [by apply IH|].
    by apply (step_identity e).
Qed.

(** X18.  In every state a scheduler reaches, [Name], [Host], [Ip] and
    [Labels] return the arguments of [NewPing], and the source address, the
    interval, the timeout, the count and the IPv6 flag are the ones it was
    created with. *)
Theorem X18_identity_is_stable
    (startupDelay : Z) (name host ip srcAddr : string)
    (interval timeout count : Z) (labels : gmap string string) (ipv6 : bool)
    (zero : W) es s :
  target.exec es
    (target.NewPing startupDelay name host ip srcAddr interval timeout count
       labels ipv6 zero) = Some s ->
  target.Name (target.sched s) = name /\
  target.Host (target.sched s) = host /\
  target.Ip (target.sched s) = ip /\
  target.Labels (target.sched s) = labels /\
  target.srcAddr (target.sched s) = srcAddr /\
  target.interval (target.sched s) = interval /\
  target.timeout (target.sched s) = timeout /\
  target.count (target.sched s) = count /\
  target.ipv6 (target.sched s) = ipv6.
Proof. intros E. apply (exec_identity es _ s E). Qed.

Lemma wrap_add_wrap a b : int64.wrap (a + int64.wrap b) = int64.wrap (a + b).
Proof.
  unfold int64.wrap. f_equal.
  replace (a + ((b + 2 ^ 63) mod 2 ^ 64 - 2 ^ 63) + 2 ^ 63)
    with (a + (b + 2 ^ 63) mod 2 ^ 64) by lia.
  rewrite Z.add_mod_idemp_r by lia. f_equal. lia.
Qed.

Lemma last_windowed_cons (z : W) d ds :
  last_windowed z (d :: ds) = last_windowed (target.Windowed d) ds.
Proof.
  unfold last_windowed. rewrite last_cons. by destruct (last ds).
Qed.

(** The stored result after a run, overflow or not. *)
Lemma exec_wrapped_totals es s s' r :
  target.exec es s = Some s' ->
  target.result (target.sched s) = Some r ->
  counters_in_range r ->
  exists r',
    target.result (target.sched s') = Some r' /\
    counters_in_range r' /\
    target.Windowed r' = last_windowed (target.Windowed r) (target.samples es) /\
    target.SntSummary r' =
      int64.wrap (total target.SntSummary (target.samples es) +
                  target.SntSummary r) /\
    target.SntFailSummary r' =
      int64.wrap (total target.SntFailSummary (target.samples es) +
                  target.SntFailSummary r) /\
    target.SntTimeSummary r' =
      int64.wrap (total target.SntTimeSummary (target.samples es) +
                  target.SntTimeSummary r).
Proof.
  revert s r. induction es as [|e es IH]; intros s r; cbn [target.exec].
  - intros [= <-] R In. pose proof In as (i1 & i2 & i3). exists r. simpl.
    rewrite !wrap_id by done. split; [done|]. split; [done|].
    split; [reflexivity|]. by repeat split.
  - destruct (target.step e s) as [s1|] eqn:St; [|done].
    intros Ex R In.
    destruct (step_result e s s1 St) as [[E S0]|(d & r0 & -> & R0 & R1)].
    + rewrite samples_cons, S0. simpl. apply (IH s1 r); try done.
      by rewrite E.
    + rewrite R in R0. injection R0 as <-.
      change (target.samples (target.Probed (Some d) :: es))
        with (d :: target.samples es).
      destruct (IH s1 (target.merge d r) Ex R1 (merge_in_range d r))
        as (r' & R' & In' & w0 & e1 & e2 & e3).
      exists r'. split; [done|]. split; [done|].
      rewrite last_windowed_cons. split; [done|].
      rewrite e1, e2, e3. simpl. unfold int64.add.
      rewrite !wrap_add_wrap. repeat split; f_equal; lia.
Qed.

Lemma total_Permutation (f : target.PingResult W -> Z) ds ds' :
  ds ≡ₚ ds' -> total f ds = total f ds'.
Proof. induction 1; simpl; lia. Qed.

(** X19.  In every state a scheduler reaches, [Compute] returns a result
    (never nil) whose windowed fields are those of the last sample merged
    and whose three counters are the totals of all merged samples reduced
    to 64 bits; the counters do not depend on the order in which the probes
    finished. *)
Theorem X19_counters_are_wrapped_totals
    (startupDelay : Z) (name host ip srcAddr : string)
    (interval timeout count : Z) (labels : gmap string string) (ipv6 : bool)
    (zero : W) es s :
  target.exec es
    (target.NewPing startupDelay name host ip srcAddr interval timeout count
       labels ipv6 zero) = Some s ->
  exists r,
    target.Compute (target.sched s) = Some r /\
    target.Windowed r = last_windowed zero (target.samples es) /\
    target.SntSummary r =
      int64.wrap (total target.SntSummary (target.samples es)) /\
    target.SntFailSummary r =
      int64.wrap (total target.SntFailSummary (target.samples es)) /\
    target.SntTimeSummary r =
      int64.wrap (total target.SntTimeSummary (target.samples es)) /\
    forall startupDelay' es' s' r',
      target.exec es'
        (target.NewPing startupDelay' name host ip srcAddr interval timeout
           count labels ipv6 zero) = Some s' ->
      target.samples es' ≡ₚ target.samples es ->
      target.Compute (target.sched s') = Some r' ->
      target.SntSummary r' = target.SntSummary r /\
      target.SntFailSummary r' = target.SntFailSummary r /\
      target.SntTimeSummary r' = target.SntTimeSummary r.
Proof.
  assert (forall z : W, counters_in_range
            {| target.Windowed := z; target.SntSummary := 0;
               target.SntFailSummary := 0; target.SntTimeSummary := 0 |}) as I0.
  { intros z. unfold counters_in_range, int64.in_range, int64.min, int64.max.
    simpl. lia. }
  intros E.
  destruct (exec_wrapped_totals es _ s _ E eq_refl (I0 zero))
    as (r & R & _ & w0 & e1 & e2 & e3).
  simpl in w0, e1, e2, e3. rewrite !Z.add_0_r in *.
  exists r. rewrite Compute_result. repeat (split; [done|]).
  intros sd' es' s' r' E' P C'. rewrite Compute_result in C'.
  destruct (exec_wrapped_totals es' _ s' _ E' eq_refl (I0 zero))
    as (r2 & R2 & _ & _ & f1 & f2 & f3).
  rewrite C' in R2. injection R2 as <-.
  simpl in f1, f2, f3. rewrite !Z.add_0_r in *.
  rewrite e1, e2, e3, f1, f2, f3.
  by rewrite !(total_Permutation _ _ _ P).
Qed.

(** The counts of a run. *)
Lemma exec_counts es s s' :
  target.exec es s = Some s' ->
  (target.probing s' + merges es = target.probing s + launches es)%nat /\
  (launches es + (match target.run s' with target.AtSend => 1 | _ => 0 end) =
   ticks es + (match target.run s with target.AtSend => 1 | _ => 0 end))%nat.
Proof.
  revert s. induction es as [|e es IH]; intros s; cbn [target.exec].
  - intros [= <-]. unfold merges, launches, ticks. simpl. lia.
  - destruct (target.step e s) as [s1|] eqn:St; [|done].
    intros Ex. destruct (IH s1 Ex) as [P L].
    assert ((target.probing s1 + merges [e] = target.probing s + launches [e])%nat /\
            (launches [e] + (match target.run s1 with target.AtSend => 1 | _ => 0 end) =
             ticks [e] + (match target.run s with target.AtSend => 1 | _ => 0 end))%nat)
      as [P1 L1].
    { destruct e; simpl in St; step_cases St; injection St as <-;
        unfold merges, launches, ticks; simpl;
        repeat match goal with
        | E : target.run s = _ |- _ => rewrite E
        end; try (split; lia).
      all: match goal with
           | P : target.ping _ ?x = Ret _ |- _ =>
               destruct x as [d|]; simpl;
               [split; lia|unfold target.ping in P; discriminate]
           end. }
    unfold merges, launches, ticks in *.
    rewrite samples_cons, length_app.
    change (e :: es) with ([e] ++ es)%list.
    rewrite !List.filter_app, !length_app. lia.
Qed.

(** X20.  In every run of a scheduler each firing of the ticker launches
    at most one probe and each launched probe merges at most one sample:
    the merges are the launches minus the probes in flight, and the
    launches are the ticks minus the one the loop may be blocked on. *)
Theorem X20_ticks_launches_merges
    (startupDelay : Z) (name host ip srcAddr : string)
    (interval timeout count : Z) (labels : gmap string string) (ipv6 : bool)
    (zero : W) es s :
  target.exec es
    (target.NewPing startupDelay name host ip srcAddr interval timeout count
       labels ipv6 zero) = Some s ->
  (merges es + target.probing s = launches es)%nat /\
  (launches es + (match target.run s with target.AtSend => 1 | _ => 0 end) =
   ticks es)%nat /\
  (merges es <= launches es <= ticks es)%nat.
Proof.
  intros E. destruct (exec_counts es _ s E) as [P L]. simpl in P, L.
  destruct (0 <? startupDelay); simpl in L; destruct (target.run s); lia.
Qed.

Lemma exec_result es s s' r :
  target.exec es s = Some s' ->
  target.result (target.sched s) = Some r ->
  exists r', target.result (target.sched s') = Some r'.
Proof.
  revert s r. induction es as [|e es IH]; intros s r; simpl.
  - intros [= <-] R. eauto.
  - destruct (target.step e s) as [s1|] eqn:St; [|done].
    intros Ex R.
    destruct (step_result e s s1 St) as [[E _]|(d & r0 & _ & _ & R1)].
    + apply (IH s1 r Ex). by rewrite E.
    + by apply (IH s1 _ Ex R1).
Qed.

(** From a state in which [Stop] waits, the steps that let it return. *)
Lemma stop_completes s r :
  scheduler_inv s -> stop_inv s ->
  target.result (target.sched s) = Some r ->
  target.stopper s = target.AtWait ->
  exists es' s',
    target.exec es' s = Some s' /\
    target.stopper s' = target.Returned /\
    ticks es' = 0%nat /\ (merges es' <= 1)%nat /\
    (target.run s <> target.AtSend \/
     (target.waitChan s < target.MaxConcurrentJobs)%nat \/
     (0 < target.releasing s)%nat -> merges es' = 0%nat).
Proof.
  intros (_ & _ & J3 & J4) (I1 & I2 & I3 & I4) R A.
  assert (target.stop (target.sched s) = true) as C
    by (apply I1; rewrite A; discriminate).
  destruct (target.run s) eqn:Hr.
  - exists [target.DelayStopped; target.LoopStopped; target.StopReturned].
    eexists. simpl. rewrite Hr, C. simpl. rewrite C, A, I3. simpl.
    split; [reflexivity|]. unfold ticks, merges. simpl.
    repeat split; auto; lia.
  - exists [target.LoopStopped; target.StopReturned].
    eexists. simpl. rewrite Hr, C. simpl. rewrite A, I3. simpl.
    split; [reflexivity|]. unfold ticks, merges. simpl.
    repeat split; auto; lia.
  - destruct (target.waitChan s <? target.MaxConcurrentJobs)%nat eqn:G.
    + exists [target.Launched; target.LoopStopped; target.StopReturned].
      eexists. simpl. rewrite Hr, G. simpl. rewrite C, A, I3. simpl.
      split; [reflexivity|]. unfold ticks, merges. simpl.
      repeat split; auto; lia.
    + apply Nat.ltb_ge in G. unfold target.MaxConcurrentJobs in *.
      destruct (target.releasing s) as [|n] eqn:Rel.
      * exists [target.Probed (Some r); target.Released; target.Launched;
                target.LoopStopped; target.StopReturned].
        destruct (target.probing s) as [|p] eqn:Pr; [lia|].
        destruct (target.waitChan s) as [|[|[|[|wc]]]] eqn:Wc; try lia.
        eexists. simpl. rewrite Pr. unfold target.ping. rewrite R. simpl.
        rewrite Rel, Wc. simpl. rewrite Hr. simpl. rewrite C, A, I3. simpl.
        split; [reflexivity|]. unfold ticks, merges. simpl.
        split; [done|]. split; [done|]. split; [lia|].
        intros [H|[H|H]]; [done|lia|lia].
      * exists [target.Released; target.Launched; target.LoopStopped;
                target.StopReturned].
        destruct (target.waitChan s) as [|[|[|[|wc]]]] eqn:Wc; try lia.
        eexists. simpl. rewrite Rel, Wc. simpl. rewrite Hr. simpl.
        rewrite C, A, I3. simpl.
        split; [reflexivity|]. unfold ticks, merges. simpl.
        repeat split; auto; lia.
  - exists [target.StopReturned]. eexists. simpl. rewrite A, I3. simpl.
    split; [reflexivity|]. unfold ticks, merges. simpl.
    repeat split; auto; lia.
Qed.

(** X21.  Once [Stop] has been called it can return.  For a scheduler
    with a positive interval ([time.NewTicker] panics on any other), from
    every state it reaches in which the caller waits, a few further steps
    bring the call back, none of them a tick and at most one of them a
    merge.  Only when the loop is blocked on the full channel and no
    goroutine is about to release its token does one probe have to finish
    first. *)
Theorem X21_stop_can_return
    (startupDelay : Z) (name host ip srcAddr : string)
    (interval timeout count : Z) (labels : gmap string string) (ipv6 : bool)
    (zero : W) es s :
  (0 < interval)%Z ->
  target.exec es
    (target.NewPing startupDelay name host ip srcAddr interval timeout count
       labels ipv6 zero) = Some s ->
  target.stopper s = target.AtWait ->
  exists es' s',
    target.exec es' s = Some s' /\
    target.stopper s' = target.Returned /\
    ticks es' = 0%nat /\ (merges es' <= 1)%nat /\
    (target.run s <> target.AtSend \/
     (target.waitChan s < target.MaxConcurrentJobs)%nat \/
     (0 < target.releasing s)%nat -> merges es' = 0%nat).
Proof.
  intros _ E A.
  pose proof (exec_inv es _ s E (NewPing_inv _ _ _ _ _ _ _ _ _ _ _)) as J.
  pose proof (exec_stop_inv es _ s E (NewPing_stop_inv _ _ _ _ _ _ _ _ _ _ _))
    as I.
  destruct (exec_result es _ s _ E eq_refl) as [r R].
  by apply (stop_completes s r).
Qed.

Lemma step_gate_blocked e s s' :
  target.step e s = Some s' -> gate_blocked s ->
  target.samples [e] = [] ->
  gate_blocked s' /\ target.stopper s' <> target.Returned.
Proof.
  unfold gate_blocked, target.MaxConcurrentJobs.
  intros H (B1 & B2 & B3 & B4) S.
  destruct e; simpl in H; rewrite ?B1, ?B2, ?B3, ?B4 in H; simpl in H;
    try discriminate; step_cases H.
  - destruct data as [d|]; [simpl in S; discriminate|].
    unfold target.ping in *. discriminate.
  - injection H as <-. simpl. by repeat split.
Qed.

Lemma exec_gate_blocked es s s' :
  target.exec es s = Some s' -> gate_blocked s -> merges es = 0%nat ->
  target.stopper s <> target.Returned ->
  gate_blocked s' /\ target.stopper s' <> target.Returned.
Proof.
  revert s. induction es as [|e es IH]; intros s; cbn [target.exec].
  - intros [= <-]. by split.
  - destruct (target.step e s) as [s1|] eqn:St; [|done].
    intros Ex B M N. unfold merges in M.
    rewrite samples_cons, length_app in M.
    assert (target.samples [e] = []) as S0
      by (destruct (target.samples [e]); [done|simpl in M; lia]).
    destruct (step_gate_blocked e s s1 St B S0) as (B1 & N1).
    apply (IH s1); try done. unfold merges. rewrite S0 in M. simpl in M. lia.
Qed.

(** X22.  While the loop is blocked on the full channel and none of the
    probes in flight finishes, [Stop] does not return: the loop stays
    blocked, whatever else happens. *)
Theorem X22_stop_waits_for_the_gate
    (startupDelay : Z) (name host ip srcAddr : string)
    (interval timeout count : Z) (labels : gmap string string) (ipv6 : bool)
    (zero : W) es0 es s s' :
  target.exec es0
    (target.NewPing startupDelay name host ip srcAddr interval timeout count
       labels ipv6 zero) = Some s ->
  target.exec es s = Some s' ->
  target.run s = target.AtSend ->
  target.waitChan s = target.MaxConcurrentJobs ->
  target.releasing s = 0%nat ->
  merges es = 0%nat ->
  target.run s' = target.AtSend /\
  target.probing s' = target.MaxConcurrentJobs /\
  target.stopper s' <> target.Returned.
Proof.
  intros E0 E B1 B2 B3 M.
  pose proof (exec_stop_inv es0 _ s E0 (NewPing_stop_inv _ _ _ _ _ _ _ _ _ _ _))
    as (_ & _ & I3 & I4).
  rewrite B1 in I3.
  assert (target.stopper s <> target.Returned) as N
    by (intros H; specialize (I4 H); congruence).
  destruct (exec_gate_blocked es s s' E) as ((C1 & C2 & C3 & _) & N');
    try done.
  split; [done|]. split; [|done].
  pose proof (exec_app es0 es
    (target.NewPing startupDelay name host ip srcAddr interval timeout count
       labels ipv6 zero)) as A.
  rewrite E0, E in A.
  pose proof (exec_inv _ _ s' A (NewPing_inv _ _ _ _ _ _ _ _ _ _ _))
    as (_ & _ & J3 & _).
  lia.
Qed.

End scheduler_more.

(** ** Instances for the scheduler of one target *)

(** Three probes in flight. *)
Lemma X16_concurrency_gate_witness :
  (target.probing (default demo (target.exec
     [target.Ticked; target.Launched; target.Ticked; target.Launched;
      target.Ticked; target.Launched] demo)) <= target.MaxConcurrentJobs)%nat.
Proof.
  refine (proj1 (proj2 (X16_concurrency_gate 0 "db1" "db1.example.org"
    "192.0.2.7" "" 5000000000 4000000000 10 ∅ false tt
    [target.Ticked; target.Launched; target.Ticked; target.Launched;
     target.Ticked; target.Launched] _ _))).
  reflexivity.
Defined.

(** A scheduler that is stopped before its first tick. *)
Lemma X17_stop_protocol_witness :
  calls_Stop
    [target.StopCalled; target.LoopStopped; target.StopReturned
       : target.event unit].
Proof.
  refine (proj2 (proj2 (proj2 (proj2 (X17_stop_protocol 0 "db1"
    "db1.example.org" "192.0.2.7" "" 5000000000 4000000000 10 ∅ false tt
    [target.StopCalled; target.LoopStopped; target.StopReturned]
    (default demo (target.exec
       [target.StopCalled; target.LoopStopped; target.StopReturned] demo))
    _)))) _).
  - reflexivity.
  - simpl. discriminate.
Defined.

(** The name after one cycle. *)
Lemma X18_identity_is_stable_witness :
  target.Name (target.sched (default demo (target.exec
    [target.Ticked; target.Launched; target.Probed (Some (sample 10))] demo)))
  = "db1".
Proof.
  refine (proj1 (X18_identity_is_stable 0 "db1" "db1.example.org"
    "192.0.2.7" "" 5000000000 4000000000 10 ∅ false tt
    [target.Ticked; target.Launched; target.Probed (Some (sample 10))] _ _)).
  reflexivity.
Defined.

(** Two cycles. *)
Lemma X19_counters_are_wrapped_totals_witness :
  exists r,
    target.Compute (target.sched (default demo (target.exec
      [target.Ticked; target.Launched; target.Probed (Some (sample 10));
       target.Released; target.Ticked; target.Launched;
       target.Probed (Some (sample 7))] demo))) = Some r /\
    target.SntSummary r = int64.wrap (10 + (7 + 0)).
Proof.
  destruct (X19_counters_are_wrapped_totals 0 "db1" "db1.example.org"
    "192.0.2.7" "" 5000000000 4000000000 10 ∅ false tt
    [target.Ticked; target.Launched; target.Probed (Some (sample 10));
     target.Released; target.Ticked; target.Launched;
     target.Probed (Some (sample 7))]
    (default demo (target.exec
      [target.Ticked; target.Launched; target.Probed (Some (sample 10));
       target.Released; target.Ticked; target.Launched;
       target.Probed (Some (sample 7))] demo)) eq_refl)
    as (r & C & _ & S & _).
  exists r. split; [exact C|exact S].
Defined.

(** Two ticks, one launch, no merge yet. *)
Lemma X20_ticks_launches_merges_witness :
  (merges [target.Ticked; target.Launched; target.Ticked : target.event unit]
   <= launches [target.Ticked; target.Launched; target.Ticked : target.event unit]
   <= ticks [target.Ticked; target.Launched; target.Ticked : target.event unit])%nat.
Proof.
  refine (proj2 (proj2 (X20_ticks_launches_merges 0 "db1" "db1.example.org"
    "192.0.2.7" "" 5000000000 4000000000 10 ∅ false tt
    [target.Ticked; target.Launched; target.Ticked] _ _))).
  reflexivity.
Defined.

(** [Stop] called while one probe is in flight. *)
Lemma X21_stop_can_return_witness :
  exists es' s',
    target.exec es'
      (default demo (target.exec
         [target.Ticked; target.Launched; target.StopCalled] demo)) = Some s' /\
    target.stopper s' = target.Returned /\ ticks es' = 0%nat.
Proof.
  destruct (X21_stop_can_return 0 "db1" "db1.example.org"
    "192.0.2.7" "" 5000000000 4000000000 10 ∅ false tt
    [target.Ticked; target.Launched; target.StopCalled]
    (default demo (target.exec
       [target.Ticked; target.Launched; target.StopCalled] demo))
    eq_refl eq_refl eq_refl) as (es' & s' & E & R & T & _).
  exists es', s'. split; [exact E|]. split; [exact R|exact T].
Defined.

(** Three probes in flight and a fourth tick: [Stop] is called and waits. *)
Lemma X22_stop_waits_for_the_gate_witness :
  target.stopper (default demo (target.exec
    [target.Ticked; target.Launched; target.Ticked; target.Launched;
     target.Ticked; target.Launched; target.Ticked; target.StopCalled] demo))
  <> target.Returned.
Proof.
  refine (proj2 (proj2 (X22_stop_waits_for_the_gate 0 "db1" "db1.example.org"
    "192.0.2.7" "" 5000000000 4000000000 10 ∅ false tt
    [target.Ticked; target.Launched; target.Ticked; target.Launched;
     target.Ticked; target.Launched; target.Ticked]
    [target.StopCalled]
    (default demo (target.exec
      [target.Ticked; target.Launched; target.Ticked; target.Launched;
       target.Ticked; target.Launched; target.Ticked] demo))
    _ _ _ _ _ _ _))); reflexivity.
Defined.
